(** * ijq: an interactive terminal front end for jq

    A shallow embedding of [main.go] and of the parts of the Go
    standard library and of the Bubble Tea widgets that [main.go]
    calls, followed by the properties of the controller (the [Update]
    function), of the query executor ([jq]), of document loading
    ([getContent]) and of the exit contract ([main]).

    Go strings are byte strings: [string] with [ascii] as the byte.
    Go [int] is a 64-bit signed integer: [Z] with the wrap-around of
    [+] and [-] written out.  A [rune] is a code point, a [Z]. *)

From Stdlib Require Import ZArith List String Ascii Bool Lia.
Import ListNotations.
Local Open Scope string_scope.
Local Open Scope Z_scope.

Set Implicit Arguments.

(** ** Go integers *)

Module goint.

Definition wrap (z : Z) : Z := (z + 2 ^ 63) mod 2 ^ 64 - 2 ^ 63.

Definition add (a b : Z) : Z := wrap (a + b).
Definition sub (a b : Z) : Z := wrap (a - b).

Definition in_range (z : Z) : Prop := - 2 ^ 63 <= z < 2 ^ 63.

(** [len] of a slice or of a string, as an [int]. *)
Definition len {A : Type} (l : list A) : Z := Z.of_nat (List.length l).

End goint.

(** ** Bytes and byte strings *)

Definition byte_val (c : ascii) : Z := Z.of_N (N_of_ascii c).
Definition byte_of (z : Z) : ascii := ascii_of_N (Z.to_N (z mod 256)).

Fixpoint drop (n : nat) (s : string) : string :=
  match n, s with
  | O, _ => s
  | S _, EmptyString => EmptyString
  | S k, String _ t => drop k t
  end.

Fixpoint take (n : nat) (s : string) : string :=
  match n, s with
  | O, _ => EmptyString
  | S _, EmptyString => EmptyString
  | S k, String c t => String c (take k t)
  end.

Definition is_empty (s : string) : bool :=
  match s with EmptyString => true | String _ _ => false end.

(** ** package cmp *)

Module cmp.

(** [cmp.Or(vals...)]: the first argument that is not the zero value
    (for strings, the empty string), or the zero value. *)
Fixpoint Or (vals : list string) : string :=
  match vals with
  | [] => ""
  | v :: rest => if is_empty v then Or rest else v
  end.

End cmp.

(** ** package unicode/utf8 *)

Module utf8.

Definition rune := Z.

Definition RuneError : rune := 0xFFFD.
Definition RuneSelf : Z := 0x80.
Definition UTFMax : Z := 4.
Definition MaxRune : rune := 0x10FFFF.

Definition locb : Z := 0x80.
Definition hicb : Z := 0xBF.

(** The [first] table: a leading byte is ASCII ([as]), cannot start a
    sequence ([xx]), or gives the size of the sequence together with
    the accepted range of the second byte ([acceptRanges]). *)
Inductive lead :=
| lead_ascii
| lead_invalid
| lead_seq (size : nat) (lo hi : Z).

Definition first (b : Z) : lead :=
  if b <? 0x80 then lead_ascii
  else if b <? 0xC2 then lead_invalid
  else if b <? 0xE0 then lead_seq 2 locb hicb
  else if b =? 0xE0 then lead_seq 3 0xA0 hicb
  else if b <? 0xED then lead_seq 3 locb hicb
  else if b =? 0xED then lead_seq 3 locb 0x9F
  else if b <? 0xF0 then lead_seq 3 locb hicb
  else if b =? 0xF0 then lead_seq 4 0x90 hicb
  else if b <? 0xF4 then lead_seq 4 locb hicb
  else if b =? 0xF4 then lead_seq 4 locb 0x8F
  else lead_invalid.

Definition cont (b : Z) : bool := (locb <=? b) && (b <=? hicb).

(** [utf8.DecodeRuneInString]: the first rune of [s] and its width
    in bytes; [(RuneError, 0)] on the empty string and
    [(RuneError, 1)] on an invalid encoding. *)
Definition DecodeRuneInString (s : string) : rune * nat :=
  match s with
  | EmptyString => (RuneError, 0%nat)
  | String c0 t =>
    let s0 := byte_val c0 in
    match first s0 with
    | lead_ascii => (s0, 1%nat)
    | lead_invalid => (RuneError, 1%nat)
    | lead_seq sz lo hi =>
      match t with
      | EmptyString => (RuneError, 1%nat)
      | String c1 t1 =>
        let s1 := byte_val c1 in
        if (s1 <? lo) || (hi <? s1) then (RuneError, 1%nat)
        else if (sz <=? 2)%nat
        then (Z.lor (Z.shiftl (Z.land s0 0x1F) 6) (Z.land s1 0x3F), 2%nat)
        else
          match t1 with
          | EmptyString => (RuneError, 1%nat)
          | String c2 t2 =>
            let s2 := byte_val c2 in
            if negb (cont s2) then (RuneError, 1%nat)
            else if (sz <=? 3)%nat
            then (Z.lor (Z.lor (Z.shiftl (Z.land s0 0x0F) 12)
                               (Z.shiftl (Z.land s1 0x3F) 6))
                        (Z.land s2 0x3F), 3%nat)
            else
              match t2 with
              | EmptyString => (RuneError, 1%nat)
              | String c3 _ =>
                let s3 := byte_val c3 in
                if negb (cont s3) then (RuneError, 1%nat)
                else (Z.lor (Z.lor (Z.lor (Z.shiftl (Z.land s0 0x07) 18)
                                          (Z.shiftl (Z.land s1 0x3F) 12))
                                   (Z.shiftl (Z.land s2 0x3F) 6))
                            (Z.land s3 0x3F), 4%nat)
              end
          end
      end
    end
  end.

(** [utf8.RuneStart]: the byte is not a continuation byte. *)
Definition RuneStart (b : Z) : bool := negb (Z.land b 0xC0 =? 0x80).

(** The backwards search of [DecodeLastRuneInString] for the start of
    the last rune: [rev_prefix] holds the bytes before position
    [end - 1], nearest first; the result is [end - 1 - start] before
    [start] is clamped to 0: the loop looks at up to [UTFMax - 1]
    bytes and, finding no start byte among them, leaves [start] one
    position further back. *)
Fixpoint back_to_start (budget : nat) (rev_prefix : list ascii) : nat :=
  match budget, rev_prefix with
  | O, _ => 1%nat
  | S _, [] => 0%nat
  | S k, c :: r =>
    if RuneStart (byte_val c) then 1%nat else S (back_to_start k r)
  end.

(** [utf8.DecodeLastRuneInString], on the reversed string. *)
Definition DecodeLastRuneInString (rev_s : list ascii) : rune * nat :=
  match rev_s with
  | [] => (RuneError, 0%nat)
  | c :: r =>
    let b := byte_val c in
    if b <? RuneSelf then (b, 1%nat)
    else
      let back := Nat.min (back_to_start 3 r) (List.length r) in
      let cand := string_of_list_ascii (rev (firstn (S back) rev_s)) in
      let '(rn, size) := DecodeRuneInString cand in
      if (size =? S back)%nat then (rn, size) else (RuneError, 1%nat)
  end.

(** The conversion [string(r)] of one rune ([utf8.AppendRune]): values
    outside the Unicode range and surrogates are encoded as
    [RuneError]. *)
Definition enc3 (r : rune) : string :=
  String (byte_of (Z.lor 0xE0 (Z.shiftr r 12)))
    (String (byte_of (Z.lor 0x80 (Z.land (Z.shiftr r 6) 0x3F)))
      (String (byte_of (Z.lor 0x80 (Z.land r 0x3F))) EmptyString)).

Definition EncodeRune (r : rune) : string :=
  if (0 <=? r) && (r <=? 0x7F) then String (byte_of r) EmptyString
  else if (0 <=? r) && (r <=? 0x7FF) then
    String (byte_of (Z.lor 0xC0 (Z.shiftr r 6)))
      (String (byte_of (Z.lor 0x80 (Z.land r 0x3F))) EmptyString)
  else if (r <? 0) || (MaxRune <? r) || ((0xD800 <=? r) && (r <=? 0xDFFF))
  then enc3 RuneError
  else if r <=? 0xFFFF then enc3 r
  else
    String (byte_of (Z.lor 0xF0 (Z.shiftr r 18)))
      (String (byte_of (Z.lor 0x80 (Z.land (Z.shiftr r 12) 0x3F)))
        (String (byte_of (Z.lor 0x80 (Z.land (Z.shiftr r 6) 0x3F)))
          (String (byte_of (Z.lor 0x80 (Z.land r 0x3F))) EmptyString))).

(** The conversion [string(rs)] of a rune slice. *)
Fixpoint string_of_runes (rs : list rune) : string :=
  match rs with
  | [] => ""
  | r :: rest => EncodeRune r ++ string_of_runes rest
  end.

End utf8.

(** ** package unicode *)

Module unicode.

(** [unicode.IsSpace]: the Latin-1 spaces, and above Latin-1 the
    [White_Space] range table. *)
Definition IsSpace (r : utf8.rune) : bool :=
  if (0 <=? r) && (r <=? 0xFF) then
    ((0x09 <=? r) && (r <=? 0x0D)) || (r =? 0x20) || (r =? 0x85) || (r =? 0xA0)
  else
    (r =? 0x1680) || ((0x2000 <=? r) && (r <=? 0x200A))
    || (r =? 0x2028) || (r =? 0x2029) || (r =? 0x202F) || (r =? 0x205F)
    || (r =? 0x3000).

End unicode.

(** ** package strings *)

Module strings.

(** The [asciiSpace] table: tab, newline, vertical tab, form feed,
    carriage return and space. *)
Definition asciiSpace (c : ascii) : bool :=
  let b := byte_val c in ((0x09 <=? b) && (b <=? 0x0D)) || (b =? 0x20).

Section Func.

Variable f : utf8.rune -> bool.

(** [TrimLeftFunc]: [s] from the first rune that does not satisfy
    [f], or the empty string when there is none.  The loop runs over
    the runes of [s]; [fuel] bounds it by the length of [s]. *)
Fixpoint trimLeftLoop (fuel : nat) (s : string) : string :=
  match fuel with
  | O => ""
  | S k =>
    match s with
    | EmptyString => ""
    | String _ _ =>
      let '(r, w) := utf8.DecodeRuneInString s in
      if f r then trimLeftLoop k (drop w s) else s
    end
  end.

Definition TrimLeftFunc (s : string) : string :=
  trimLeftLoop (String.length s) s.

(** [TrimRightFunc]: [lastIndexFunc] walks back from the end over
    the runes that satisfy [f]; [rev_s] is the part of [s] not yet
    passed, reversed, and [suffix] the part already passed.  At the
    last rune [r] that does not satisfy [f], at index [i], the
    result is [s[0:i+wid]] with [wid] the width of the rune decoded
    forwards at [s[i:]], or 1 for an ASCII byte. *)
Fixpoint trimRightLoop (fuel : nat) (rev_s : list ascii) (suffix : string)
  : string :=
  match fuel with
  | O => ""
  | S k =>
    match rev_s with
    | [] => ""
    | _ :: _ =>
      let '(r, size) := utf8.DecodeLastRuneInString rev_s in
      let head := string_of_list_ascii (rev (skipn size rev_s)) in
      let tail := string_of_list_ascii (rev (firstn size rev_s)) ++ suffix in
      if f r then trimRightLoop k (skipn size rev_s) tail
      else
        let wid :=
          match tail with
          | EmptyString => 1%nat
          | String c _ =>
            if utf8.RuneSelf <=? byte_val c
            then snd (utf8.DecodeRuneInString tail) else 1%nat
          end in
        head ++ take wid tail
    end
  end.

Definition TrimRightFunc (s : string) : string :=
  trimRightLoop (String.length s) (rev (list_ascii_of_string s)) "".

Definition TrimFunc (s : string) : string :=
  TrimRightFunc (TrimLeftFunc s).

End Func.

(** The second loop of [TrimSpace], from the end of the string, on
    the reversed string [s[start:stop]]. *)
Fixpoint trimSpaceTail (rev_s : list ascii) : string :=
  match rev_s with
  | [] => ""
  | c :: r =>
    if utf8.RuneSelf <=? byte_val c
    then TrimRightFunc unicode.IsSpace (string_of_list_ascii (rev rev_s))
    else if asciiSpace c then trimSpaceTail r
    else string_of_list_ascii (rev rev_s)
  end.

(** [strings.TrimSpace]: the ASCII fast path from both ends, falling
    back to the Unicode-aware functions at the first non-ASCII byte. *)
Fixpoint TrimSpace (s : string) : string :=
  match s with
  | EmptyString => ""
  | String c t =>
    if utf8.RuneSelf <=? byte_val c then TrimFunc unicode.IsSpace s
    else if asciiSpace c then TrimSpace t
    else trimSpaceTail (rev (list_ascii_of_string s))
  end.

Definition LF : ascii := ascii_of_nat 10.
Definition CR : ascii := ascii_of_nat 13.

(** [strings.Count(s, "\n")]. *)
Fixpoint CountLF (s : string) : Z :=
  match s with
  | EmptyString => 0
  | String c t => if Ascii.eqb c LF then goint.add (CountLF t) 1 else CountLF t
  end.

(** [strings.ReplaceAll(s, "\r\n", "\n")]. *)
Fixpoint ReplaceCRLF (s : string) : string :=
  match s with
  | EmptyString => ""
  | String c t =>
    match t with
    | EmptyString => String c ""
    | String c' t' =>
      if Ascii.eqb c CR && Ascii.eqb c' LF
      then String LF (ReplaceCRLF t')
      else String c (ReplaceCRLF t)
    end
  end.

(** [strings.Split(s, "\n")]: always at least one element. *)
Fixpoint SplitLF (s : string) : list string :=
  match s with
  | EmptyString => [""]
  | String c t =>
    if Ascii.eqb c LF then "" :: SplitLF t
    else
      match SplitLF t with
      | [] => [String c ""]
      | l :: ls => String c l :: ls
      end
  end.

(** [strings.Join(ls, "\n")]. *)
Fixpoint JoinLF (ls : list string) : string :=
  match ls with
  | [] => ""
  | [l] => l
  | l :: rest => l ++ String LF (JoinLF rest)
  end.

End strings.

Definition newline : string := String strings.LF "".

(** A byte string given by the values of its bytes. *)
Definition bytes (l : list Z) : string :=
  fold_right (fun b s => String (byte_of b) s) "" l.

(** ** package lipgloss, the part without styles *)

Module lipgloss.

(** [lipgloss.Height(str)]: [strings.Count(str, "\n") + 1]. *)
Definition Height (str : string) : Z := goint.add (strings.CountLF str) 1.

End lipgloss.

(** ** package key (bubbles) *)

Module key.

Record Help := { Key : string; Desc : string }.

Record Binding := { keys : list string; help : Help; disabled : bool }.

Definition BindingOpt := Binding -> Binding.

Definition WithKeys (ks : list string) : BindingOpt :=
  fun b => {| keys := ks; help := help b; disabled := disabled b |}.

Definition WithHelp (k desc : string) : BindingOpt :=
  fun b => {| keys := keys b; help := {| Key := k; Desc := desc |};
              disabled := disabled b |}.

Definition NewBinding (opts : list BindingOpt) : Binding :=
  fold_left (fun b opt => opt b) opts
    {| keys := []; help := {| Key := ""; Desc := "" |}; disabled := false |}.

Definition SetEnabled (v : bool) (b : Binding) : Binding :=
  {| keys := keys b; help := help b; disabled := negb v |}.

Definition Enabled (b : Binding) : bool :=
  negb (disabled b) && negb (match keys b with [] => true | _ => false end).

End key.

(** ** The external collaborators

    The private state of the widgets, their rendering and their own key
    handling live in the Bubble Tea libraries, and the terminal decides
    which messages arrive.  [main.go] uses them through a handful of
    operations; they are the fields of [Platform], over which everything
    below is generic. *)

Class Platform : Type := {
  (** [tea.KeyMsg] and its [String()] method *)
  key_msg : Type;
  key_String : key_msg -> string;
  (** messages of any other dynamic type *)
  other_msg : Type;
  (** the non-nil commands that the widgets return *)
  widget_cmd : Type;
  (** [cursor.Model], the cursor of the text input *)
  cursor_Model : Type;
  cursor_New : cursor_Model;
  cursor_Focus : cursor_Model -> cursor_Model * option widget_cmd;
  cursor_Blur : cursor_Model -> cursor_Model;
  (** the fields of [textinput.Model] that [main.go] never touches *)
  textinput_private : Type;
  textinput_New_private : textinput_private;
  (** [viewport.KeyMap] *)
  viewport_KeyMap : Type;
  viewport_KeyMap_zero : viewport_KeyMap;
  viewport_DefaultKeyMap : viewport_KeyMap;
  (** [lipgloss.Style] *)
  lipgloss_Style : Type;
  lipgloss_Style_zero : lipgloss_Style;
  lipgloss_GetVerticalFrameSize : lipgloss_Style -> Z;
  (** [_marginTop1.Render] *)
  marginTop1_Render : string -> string;
  (** the fields of [help.Model] other than [Width] *)
  help_private : Type;
  help_New_private : help_private
}.

(** ** package tea (Bubble Tea) *)

Module tea.
Section WithPlatform.
Context {P : Platform}.

Inductive Msg :=
| WindowSizeMsg (Width Height : Z)
| KeyMsg (k : key_msg)
| QuitMsg
| OtherMsg (o : other_msg).

(** A non-nil [tea.Cmd]; the nil command is [None]. *)
Inductive Cmd :=
| Quit
| WidgetCmd (c : widget_cmd).

End WithPlatform.
End tea.

(** ** package textinput (bubbles) *)

Module textinput.
Section WithPlatform.
Context {P : Platform}.

Record Model := {
  value : list utf8.rune;
  focus : bool;
  Width : Z;
  Placeholder : string;
  Cursor : cursor_Model;
  private : textinput_private
}.

Definition New : Model :=
  {| value := []; focus := false; Width := 0; Placeholder := "";
     Cursor := cursor_New; private := textinput_New_private |}.

Definition Focus (m : Model) : Model * option widget_cmd :=
  let '(c, cmd) := cursor_Focus (Cursor m) in
  ({| value := value m; focus := true; Width := Width m;
      Placeholder := Placeholder m; Cursor := c; private := private m |},
   cmd).

Definition Blur (m : Model) : Model :=
  {| value := value m; focus := false; Width := Width m;
     Placeholder := Placeholder m; Cursor := cursor_Blur (Cursor m);
     private := private m |}.

Definition set_Placeholder (p : string) (m : Model) : Model :=
  {| value := value m; focus := focus m; Width := Width m;
     Placeholder := p; Cursor := Cursor m; private := private m |}.

Definition set_Width (w : Z) (m : Model) : Model :=
  {| value := value m; focus := focus m; Width := w;
     Placeholder := Placeholder m; Cursor := Cursor m;
     private := private m |}.

(** [Value()]: [string(m.value)]. *)
Definition Value (m : Model) : string := utf8.string_of_runes (value m).

End WithPlatform.
End textinput.

(** ** package viewport (bubbles) *)

Module viewport.
Section WithPlatform.
Context {P : Platform}.

Record Model := {
  Width : Z;
  Height : Z;
  KeyMap : viewport_KeyMap;
  MouseWheelEnabled : bool;
  MouseWheelDelta : Z;
  YOffset : Z;
  YPosition : Z;
  Style : lipgloss_Style;
  HighPerformanceRendering : bool;
  initialized : bool;
  lines : list string
}.

(** The zero value [viewport.Model{}]. *)
Definition zero : Model :=
  {| Width := 0; Height := 0; KeyMap := viewport_KeyMap_zero;
     MouseWheelEnabled := false; MouseWheelDelta := 0; YOffset := 0;
     YPosition := 0; Style := lipgloss_Style_zero;
     HighPerformanceRendering := false; initialized := false;
     lines := [] |}.

Definition set_Width (w : Z) (m : Model) : Model :=
  {| Width := w; Height := Height m; KeyMap := KeyMap m;
     MouseWheelEnabled := MouseWheelEnabled m;
     MouseWheelDelta := MouseWheelDelta m; YOffset := YOffset m;
     YPosition := YPosition m; Style := Style m;
     HighPerformanceRendering := HighPerformanceRendering m;
     initialized := initialized m; lines := lines m |}.

Definition set_Height (h : Z) (m : Model) : Model :=
  {| Width := Width m; Height := h; KeyMap := KeyMap m;
     MouseWheelEnabled := MouseWheelEnabled m;
     MouseWheelDelta := MouseWheelDelta m; YOffset := YOffset m;
     YPosition := YPosition m; Style := Style m;
     HighPerformanceRendering := HighPerformanceRendering m;
     initialized := initialized m; lines := lines m |}.

Definition set_YOffset (y : Z) (m : Model) : Model :=
  {| Width := Width m; Height := Height m; KeyMap := KeyMap m;
     MouseWheelEnabled := MouseWheelEnabled m;
     MouseWheelDelta := MouseWheelDelta m; YOffset := y;
     YPosition := YPosition m; Style := Style m;
     HighPerformanceRendering := HighPerformanceRendering m;
     initialized := initialized m; lines := lines m |}.

Definition set_HighPerformanceRendering (b : bool) (m : Model) : Model :=
  {| Width := Width m; Height := Height m; KeyMap := KeyMap m;
     MouseWheelEnabled := MouseWheelEnabled m;
     MouseWheelDelta := MouseWheelDelta m; YOffset := YOffset m;
     YPosition := YPosition m; Style := Style m;
     HighPerformanceRendering := b;
     initialized := initialized m; lines := lines m |}.

Definition set_lines (ls : list string) (m : Model) : Model :=
  {| Width := Width m; Height := Height m; KeyMap := KeyMap m;
     MouseWheelEnabled := MouseWheelEnabled m;
     MouseWheelDelta := MouseWheelDelta m; YOffset := YOffset m;
     YPosition := YPosition m; Style := Style m;
     HighPerformanceRendering := HighPerformanceRendering m;
     initialized := initialized m; lines := ls |}.

(** [New(width, height)]: the two dimensions, then
    [setInitialValues]. *)
Definition New (width height : Z) : Model :=
  {| Width := width; Height := height; KeyMap := viewport_DefaultKeyMap;
     MouseWheelEnabled := true; MouseWheelDelta := 3; YOffset := 0;
     YPosition := 0; Style := lipgloss_Style_zero;
     HighPerformanceRendering := false; initialized := true;
     lines := [] |}.

Definition AtTop (m : Model) : bool := YOffset m <=? 0.

(** [maxYOffset]: the number of lines that do not fit in the height;
    releases of the widget that put a frame around it add the
    vertical size of the frame, which is 0 for the zero style. *)
Definition maxYOffset (m : Model) : Z :=
  Z.max 0 (goint.add (goint.sub (goint.len (lines m)) (Height m))
                     (lipgloss_GetVerticalFrameSize (Style m))).

Definition clamp (v low high : Z) : Z :=
  let '(low, high) := if high <? low then (high, low) else (low, high) in
  Z.min high (Z.max low v).

Definition SetYOffset (n : Z) (m : Model) : Model :=
  set_YOffset (clamp n 0 (maxYOffset m)) m.

(** [GotoTop] and [GotoBottom] also return the visible lines, which
    [main.go] drops. *)
Definition GotoTop (m : Model) : Model :=
  if AtTop m then m else SetYOffset 0 m.

Definition GotoBottom (m : Model) : Model :=
  SetYOffset (maxYOffset m) m.

(** [SetContent(s)]: normalise the line endings, split into lines,
    and go to the bottom when the offset is past the last line. *)
Definition SetContent (s : string) (m : Model) : Model :=
  let m := set_lines (strings.SplitLF (strings.ReplaceCRLF s)) m in
  if goint.sub (goint.len (lines m)) 1 <? YOffset m
  then GotoBottom m else m.

(** The content of the viewport as one text. *)
Definition content (m : Model) : string := strings.JoinLF (lines m).

End WithPlatform.
End viewport.

(** ** package help (bubbles) *)

Module help.
Section WithPlatform.
Context {P : Platform}.

Record Model := { Width : Z; private : help_private }.

Definition New : Model := {| Width := 0; private := help_New_private |}.

Definition set_Width (w : Z) (m : Model) : Model :=
  {| Width := w; private := private m |}.

(** The interface [help.KeyMap]. *)
Class KeyMap (K : Type) := {
  ShortHelp : K -> list key.Binding;
  FullHelp : K -> list (list key.Binding)
}.

End WithPlatform.
End help.

(** The widgets' own rendering and key handling. *)
Class Widgets {P : Platform} : Type := {
  textinput_View : textinput.Model -> string;
  textinput_Update :
    textinput.Model -> key_msg -> textinput.Model * option widget_cmd;
  viewport_View : viewport.Model -> string;
  viewport_Update :
    viewport.Model -> key_msg -> viewport.Model * option widget_cmd;
  help_View :
    help.Model -> list key.Binding -> list (list key.Binding) -> string
}.

(** ** The operating system

    What the process reads from its environment is fixed by a [Host]:
    the file arguments, standard input, the files, the search path, the
    behaviour of the subprocesses and the messages that reach the event
    loop.  What it does to its environment is recorded in a [World]:
    the subprocesses it has run and what it has written to standard
    output. *)

Definition error := string.

(** A source of bytes read to its end by [io.Copy]: the bytes delivered
    and the error, if any, that stopped the copy. *)
Record Stream := { data : string; read_err : option error }.

Inductive fd := Stdout | Stderr.

(** One run of a subprocess: the chunks it wrote, in the order of the
    writes, each to its standard output or to its standard error, and the
    error returned by [Cmd.Run] (start failure or non-zero exit status). *)
Record ProcessRun := { writes : list (fd * string); run_err : option error }.

Record Execution := {
  argv : list string;
  stdin : string;
  outcome : ProcessRun
}.

Record World := { execs : list Execution; stdout : string }.

Class Host {P : Platform} : Type := {
  (** [flag.Args()] *)
  flag_Args : list string;
  os_Stdin : Stream;
  (** [os.Open(name)]: an error, or the contents of the file as a stream *)
  os_Open : string -> error + Stream;
  (** the error of [exec.LookPath(name)] *)
  exec_LookPath : string -> option error;
  (** the subprocess run on an argument vector and a standard input,
      after the runs already made *)
  exec_Run : list Execution -> list string -> string -> ProcessRun;
  (** the messages delivered to the event loop, in arrival order, and
      the error that ends the loop when they run out *)
  incoming : list tea.Msg;
  loop_failure : error
}.

Definition IO (A : Type) : Type := World -> A * World.

Definition ret {A : Type} (a : A) : IO A := fun w => (a, w).

Definition bind {A B : Type} (c : IO A) (k : A -> IO B) : IO B :=
  fun w => let '(a, w') := c w in k a w'.

Notation "x <- c ;; k" := (bind c (fun x => k))
  (at level 61, c at next level, right associativity).
Notation "' p <- c ;; k" := (bind c (fun p => k))
  (at level 61, p pattern, c at next level, right associativity).

(** [cmd.Run()] with both [cmd.Stdout] and [cmd.Stderr] set to the same
    builder: every chunk is appended to it in the order of the writes. *)
Definition combined (r : ProcessRun) : string :=
  fold_right (fun chunk acc => snd chunk ++ acc)%string "" (writes r).

Definition exec_Cmd_Run `{Host} (args : list string) (input : string)
  : IO ProcessRun :=
  fun w =>
    let r := exec_Run (execs w) args input in
    (r, {| execs := (execs w ++ [{| argv := args; stdin := input;
                                    outcome := r |}])%list;
           stdout := stdout w |}).

(** [fmt.Println(s)] *)
Definition fmt_Println (s : string) : IO unit :=
  fun w => (tt, {| execs := execs w;
                   stdout := (stdout w ++ s ++ String strings.LF "")%string |}).

(** ** main.go *)

Record keyMap := {
  quit : key.Binding;
  focusNextPane : key.Binding;
  eval : key.Binding
}.

Definition defaultKeyMap : keyMap :=
  {| quit := key.NewBinding
               [key.WithKeys ["ctrl+c"]; key.WithHelp "ctrl+c" "quit"];
     focusNextPane := key.NewBinding
               [key.WithKeys ["tab"]; key.WithHelp "tab" "focus next pane"];
     eval := key.NewBinding
               [key.WithKeys ["enter"]; key.WithHelp "enter" "eval"] |}.

#[export] Instance keyMap_KeyMap : help.KeyMap keyMap := {
  help.ShortHelp k := [quit k; eval k; focusNextPane k];
  help.FullHelp k := [[quit k; eval k; focusNextPane k]]
}.

Definition set_eval (b : key.Binding) (k : keyMap) : keyMap :=
  {| quit := quit k; focusNextPane := focusNextPane k; eval := b |}.

Section Main.
Context {P : Platform} {W : Widgets} {H : Host}.

Record model := {
  help : help.Model;
  content : string;
  result : string;
  viewport : viewport.Model;
  keys : keyMap;
  textinput : textinput.Model;
  ready : bool;
  focusViewport : bool
}.

Definition set_help (h : help.Model) (m : model) : model :=
  {| help := h; content := content m; result := result m;
     viewport := viewport m; keys := keys m; textinput := textinput m;
     ready := ready m; focusViewport := focusViewport m |}.

Definition set_result (r : string) (m : model) : model :=
  {| help := help m; content := content m; result := r;
     viewport := viewport m; keys := keys m; textinput := textinput m;
     ready := ready m; focusViewport := focusViewport m |}.

Definition set_viewport (v : viewport.Model) (m : model) : model :=
  {| help := help m; content := content m; result := result m;
     viewport := v; keys := keys m; textinput := textinput m;
     ready := ready m; focusViewport := focusViewport m |}.

Definition set_keys (k : keyMap) (m : model) : model :=
  {| help := help m; content := content m; result := result m;
     viewport := viewport m; keys := k; textinput := textinput m;
     ready := ready m; focusViewport := focusViewport m |}.

Definition set_textinput (t : textinput.Model) (m : model) : model :=
  {| help := help m; content := content m; result := result m;
     viewport := viewport m; keys := keys m; textinput := t;
     ready := ready m; focusViewport := focusViewport m |}.

Definition set_ready (b : bool) (m : model) : model :=
  {| help := help m; content := content m; result := result m;
     viewport := viewport m; keys := keys m; textinput := textinput m;
     ready := b; focusViewport := focusViewport m |}.

Definition set_focusViewport (b : bool) (m : model) : model :=
  {| help := help m; content := content m; result := result m;
     viewport := viewport m; keys := keys m; textinput := textinput m;
     ready := ready m; focusViewport := b |}.

(** [help.Model.View(k)] on a [help.KeyMap]. *)
Definition help_Model_View {K : Type} `{help.KeyMap K}
  (h : help.Model) (k : K) : string :=
  help_View h (help.ShortHelp k) (help.FullHelp k).

(** [func jq(content, filter string) string] *)
Definition jq (content filter : string) : IO string :=
  r <- exec_Cmd_Run ["jq"; "--color-output"; cmp.Or [filter; "."]] content ;;
  ret (combined r).

(** [func (m model) jqFilter() string] *)
Definition jqFilter (m : model) : string :=
  cmp.Or [strings.TrimSpace (textinput.Value (textinput m)); "."].

(** [func newModel(content string) model] *)
Definition newModel (content : string) : IO model :=
  let ti := textinput.New in
  let ti := fst (textinput.Focus ti) in
  let ti := textinput.set_Placeholder "jq filter" ti in
  r <- jq content "." ;;
  ret {| help := help.New; content := content; result := r;
         viewport := viewport.zero; keys := defaultKeyMap;
         textinput := ti; ready := false; focusViewport := false |}.

(** [func (m model) Init() tea.Cmd] *)
Definition Init (m : model) : option tea.Cmd := None.

Definition lift_cmd (c : option widget_cmd) : option tea.Cmd :=
  option_map tea.WidgetCmd c.

(** [func (m model) Update(msg tea.Msg) (tea.Model, tea.Cmd)] *)
Definition Update (m : model) (msg : tea.Msg) : IO (model * option tea.Cmd) :=
  match msg with
  | tea.WindowSizeMsg width height =>
    let inputHeight := lipgloss.Height (textinput_View (textinput m)) in
    let helpHeight :=
      lipgloss.Height (marginTop1_Render (help_Model_View (help m) (keys m))) in
    let margin := goint.add inputHeight helpHeight in
    let m :=
      if negb (ready m) then
        let v := viewport.New width (goint.sub height margin) in
        let v := viewport.set_HighPerformanceRendering false v in
        let v := viewport.SetContent (result m) v in
        set_ready true (set_viewport v m)
      else
        let v := viewport.set_Width width (viewport m) in
        let v := viewport.set_Height (goint.sub height margin) v in
        set_viewport v m in
    let m := set_textinput (textinput.set_Width width (textinput m)) m in
    let m := set_help (help.set_Width width (help m)) m in
    ret (m, None)
  | tea.KeyMsg k =>
    let s := key_String k in
    if String.eqb s "ctrl+c" then ret (m, Some tea.Quit)
    else if String.eqb s "tab" then
      let m :=
        if negb (focusViewport m) then
          let m := set_textinput (textinput.Blur (textinput m)) m in
          set_keys (set_eval (key.SetEnabled false (eval (keys m))) (keys m)) m
        else
          let m := set_textinput (fst (textinput.Focus (textinput m))) m in
          set_keys (set_eval (key.SetEnabled true (eval (keys m))) (keys m)) m in
      let m := set_focusViewport (negb (focusViewport m)) m in
      ret (m, None)
    else if String.eqb s "enter" then
      if negb (focusViewport m) then
        out <- jq (content m) (jqFilter m) ;;
        let m := set_result out m in
        let m := set_viewport (viewport.SetContent out (viewport m)) m in
        let m := set_viewport (viewport.GotoTop (viewport m)) m in
        ret (m, None)
      else ret (m, None)
    else
      if negb (focusViewport m) then
        let '(ti, cmd) := textinput_Update (textinput m) k in
        ret (set_textinput ti m, lift_cmd cmd)
      else
        let '(v, cmd) := viewport_Update (viewport m) k in
        ret (set_viewport v m, lift_cmd cmd)
  | _ => ret (m, None)
  end.

(** [func (m model) View() string] *)
Definition View (m : model) : string :=
  (textinput_View (textinput m) ++ String strings.LF ""
   ++ viewport_View (viewport m) ++ String strings.LF ""
   ++ marginTop1_Render (help_Model_View (help m) (keys m)))%string.

(** [io.Copy(dst, src)] into a [strings.Builder] holding [sb]. *)
Definition io_Copy (sb : string) (src : Stream) : string * option error :=
  ((sb ++ data src)%string, read_err src).

(** [func readFile(dst io.Writer, name string) error] *)
Definition readFile (sb : string) (name : string) : string * option error :=
  match os_Open name with
  | inl e => (sb, Some e)
  | inr f => io_Copy sb f
  end.

(** The loop of [getContent] over the file arguments, left at the
    first error. *)
Fixpoint readFiles (sb : string) (names : list string)
  : string * option error :=
  match names with
  | [] => (sb, None)
  | name :: rest =>
    match readFile sb name with
    | (sb', Some e) => (sb', Some e)
    | (sb', None) => readFiles sb' rest
    end
  end.

(** [func getContent() (string, error)] *)
Definition getContent : string * option error :=
  let '(sb, err) :=
    match flag_Args with
    | [] => io_Copy "" os_Stdin
    | _ :: _ => readFiles "" flag_Args
    end in
  match err with
  | Some e => ("", Some e)
  | None => (sb, None)
  end.

(** [tea.Program.Run] for this model: each message is handed to
    [Update] in arrival order; the command [tea.Quit] comes back as the
    message [QuitMsg], at which the loop returns the model; when the
    messages run out the loop has failed. *)
Fixpoint Program_Run (msgs : list tea.Msg) (m : model)
  : IO (model * option error) :=
  match msgs with
  | [] => ret (m, Some loop_failure)
  | tea.QuitMsg :: _ => ret (m, None)
  | msg :: rest =>
    ' (m', _) <- Update m msg ;;
    Program_Run rest m'
  end.

(** How the process ends: status 0, or [log.Fatal] with a message. *)
Inductive Exit :=
| ExitOK
| Fatal (msg : string).

(** [func main()], after [flag.Parse()]. *)
Definition main : IO Exit :=
  match exec_LookPath "jq" with
  | Some _ => ret (Fatal "'jq: command not found")
  | None =>
    match getContent with
    | (_, Some err) => ret (Fatal err)
    | (content, None) =>
      m0 <- newModel content ;;
      ' (m, err) <- Program_Run incoming m0 ;;
      match err with
      | Some e => ret (Fatal e)
      | None =>
        _ <- fmt_Println (jqFilter m) ;;
        ret ExitOK
      end
    end
  end.

(** ** Runs of the controller *)

(** The model after a sequence of messages, each handed to [Update];
    the commands are left to the event loop. *)
Fixpoint steps (msgs : list tea.Msg) (m : model) : IO model :=
  match msgs with
  | [] => ret m
  | msg :: rest =>
    ' (m', _) <- Update m msg ;;
    steps rest m'
  end.

(** The models that a sequence of messages goes through, one per
    message. *)
Fixpoint states (msgs : list tea.Msg) (m : model) (w : World) : list model :=
  match msgs with
  | [] => []
  | msg :: rest =>
    let '((m', _), w') := Update m msg w in
    m' :: states rest m' w'
  end.

(** The height that a resize leaves to the input field and the help:
    [inputHeight + helpHeight] in [Update]. *)
Definition margin (m : model) : Z :=
  goint.add
    (lipgloss.Height (textinput_View (textinput m)))
    (lipgloss.Height (marginTop1_Render (help_Model_View (help m) (keys m)))).

(** The last subprocess that was run. *)
Definition last_exec (w : World) : option Execution :=
  match rev (execs w) with
  | e :: _ => Some e
  | [] => None
  end.

(** The states of a session: the one [newModel] makes from the document,
    and the ones [Update] makes of them. *)
Inductive reachable (doc : string) (w0 : World) : model -> World -> Prop :=
| reach_new :
    reachable doc w0 (fst (newModel doc w0)) (snd (newModel doc w0))
| reach_Update m w msg :
    reachable doc w0 m w ->
    reachable doc w0 (fst (fst (Update m msg w))) (snd (Update m msg w)).

End Main.

(** ** A concrete platform

    A small terminal, used to run the definitions: key messages are
    their own names, the text input appends the typed character, the
    viewport scrolls by one line on [down] and [up], and the engine
    knows the filters [.] and [.a]. *)

Module Scenario.

#[export] Instance platform : Platform := {
  key_msg := string;
  key_String := fun k => k;
  other_msg := unit;
  widget_cmd := unit;
  cursor_Model := bool;
  cursor_New := false;
  cursor_Focus := fun _ => (true, Some tt);
  cursor_Blur := fun _ => false;
  textinput_private := unit;
  textinput_New_private := tt;
  viewport_KeyMap := unit;
  viewport_KeyMap_zero := tt;
  viewport_DefaultKeyMap := tt;
  lipgloss_Style := unit;
  lipgloss_Style_zero := tt;
  lipgloss_GetVerticalFrameSize := fun _ => 0;
  marginTop1_Render := fun s => String strings.LF s;
  help_private := unit;
  help_New_private := tt
}.

Definition type_key (ti : textinput.Model) (k : string)
  : textinput.Model * option unit :=
  match k with
  | String c EmptyString =>
    ({| textinput.value := (textinput.value ti ++ [byte_val c])%list;
        textinput.focus := textinput.focus ti;
        textinput.Width := textinput.Width ti;
        textinput.Placeholder := textinput.Placeholder ti;
        textinput.Cursor := textinput.Cursor ti;
        textinput.private := textinput.private ti |}, None)
  | _ => (ti, None)
  end.

Definition scroll_key (v : viewport.Model) (k : string)
  : viewport.Model * option unit :=
  if String.eqb k "down"
  then (viewport.SetYOffset (goint.add (viewport.YOffset v) 1) v, None)
  else if String.eqb k "up"
  then (viewport.SetYOffset (goint.sub (viewport.YOffset v) 1) v, None)
  else (v, None).

#[export] Instance widgets : Widgets := {
  textinput_View := fun ti => ("> " ++ textinput.Value ti)%string;
  textinput_Update := type_key;
  viewport_View := fun v => viewport.content v;
  viewport_Update := scroll_key;
  help_View := fun _ _ _ => "ctrl+c quit"
}.

Definition dq : string := String (ascii_of_nat 34) EmptyString.

(** The document [{"a":1,"b":2}], as the files [a.json] and [b.json]
    hold it in two halves. *)
Definition half_a : string := ("{" ++ dq ++ "a" ++ dq ++ ":1,")%string.
Definition half_b : string := (dq ++ "b" ++ dq ++ ":2}")%string.
Definition document : string := (half_a ++ half_b)%string.

(** The engine: [.] prints its input, [.a] prints [1], and anything
    else is a syntax error reported on the standard error with a
    non-zero exit status. *)
Definition engine (_ : list Execution) (args : list string) (input : string)
  : ProcessRun :=
  match args with
  | [_; _; filter] =>
    if String.eqb filter "." then
      {| writes := [(Stdout, input); (Stdout, String strings.LF "")];
         run_err := None |}
    else if String.eqb filter ".a" then
      {| writes := [(Stdout, "1"); (Stdout, String strings.LF "")];
         run_err := None |}
    else
      {| writes := [(Stderr, "jq: error: syntax error");
                    (Stderr, String strings.LF "");
                    (Stderr, "jq: 1 compile error");
                    (Stderr, String strings.LF "")];
         run_err := Some "exit status 3" |}
  | _ => {| writes := []; run_err := Some "exit status 2" |}
  end.

Definition files (name : string) : error + Stream :=
  if String.eqb name "a.json"
  then inr {| data := half_a; read_err := None |}
  else if String.eqb name "b.json"
  then inr {| data := half_b; read_err := None |}
  else if String.eqb name "torn.json"
  then inr {| data := "{"; read_err := Some "read torn.json: input/output error" |}
  else inl ("open " ++ name ++ ": no such file or directory")%string.

Definition keys_of (ks : list string) : list tea.Msg := map tea.KeyMsg ks.

(** A session: the terminal reports its size, the user types [  .a  ]
    and submits, and quits. *)
Definition session : list tea.Msg :=
  (tea.WindowSizeMsg 80 24
   :: keys_of [" "; " "; "."; "a"; " "; " "; "enter"; "ctrl+c"]
   ++ [tea.QuitMsg])%list.

Definition host (args : list string) (msgs : list tea.Msg) : Host := {|
  flag_Args := args;
  os_Stdin := {| data := document; read_err := None |};
  os_Open := files;
  exec_LookPath := fun _ => None;
  exec_Run := engine;
  incoming := msgs;
  loop_failure := "program was killed"
|}.

Definition world0 : World := {| execs := []; stdout := "" |}.

(** The program started on the two halves of the document. *)
#[export] Instance terminal : Host := host ["a.json"; "b.json"] session.

(** The same with a file in the middle that cannot be read to its end. *)
Definition torn_terminal : Host :=
  host ["a.json"; "torn.json"; "b.json"] session.

(** The model and the world after some messages of a session on the
    document. *)
Definition after (msgs : list tea.Msg) : model * World :=
  steps msgs (fst (newModel document world0)) (snd (newModel document world0)).

(** A terminal of three rows leaves no row to the viewport; the user
    scrolls the viewport down by two lines, comes back to the input field
    and types [.a]. *)
Definition scrolled : model * World :=
  after (tea.WindowSizeMsg 80 3
         :: keys_of ["tab"; "down"; "down"; "tab"; "."; "a"]).

(** The user has moved the focus to the viewport. *)
Definition browsing : model * World :=
  after (tea.WindowSizeMsg 80 24 :: keys_of ["."; "a"; "tab"]).

(** An input field that holds an ideographic space, a space and a
    no-break space. *)
Definition blank : model :=
  let m := fst (after []) in
  set_textinput
    {| textinput.value := [0x3000; 0x20; 0xA0];
       textinput.focus := textinput.focus (textinput m);
       textinput.Width := textinput.Width (textinput m);
       textinput.Placeholder := textinput.Placeholder (textinput m);
       textinput.Cursor := textinput.Cursor (textinput m);
       textinput.private := textinput.private (textinput m) |} m.

End Scenario.


(** * The library functions on small inputs *)

Example Or_first_nonempty : cmp.Or [""; ".a"; "."] = ".a".
Proof. reflexivity. Qed.

Example Or_all_empty : cmp.Or [""; ""] = "".
Proof. reflexivity. Qed.

Example Encode_three_bytes : utf8.EncodeRune 0x4E2D = bytes [0xE4; 0xB8; 0xAD].
Proof. reflexivity. Qed.

Example Encode_four_bytes :
  utf8.EncodeRune 0x1F600 = bytes [0xF0; 0x9F; 0x98; 0x80].
Proof. reflexivity. Qed.

Example Encode_surrogate : utf8.EncodeRune 0xD800 = bytes [0xEF; 0xBF; 0xBD].
Proof. reflexivity. Qed.

Example Encode_negative : utf8.EncodeRune (-1) = bytes [0xEF; 0xBF; 0xBD].
Proof. reflexivity. Qed.

Example Decode_four_bytes :
  utf8.DecodeRuneInString (bytes [0xF0; 0x9F; 0x98; 0x80; 0x41]) = (0x1F600, 4%nat).
Proof. reflexivity. Qed.

Example Decode_truncated :
  utf8.DecodeRuneInString (bytes [0xE4; 0xB8]) = (utf8.RuneError, 1%nat).
Proof. reflexivity. Qed.

Example Decode_overlong :
  utf8.DecodeRuneInString (bytes [0xC0; 0x80]) = (utf8.RuneError, 1%nat).
Proof. reflexivity. Qed.

Example Decode_surrogate :
  utf8.DecodeRuneInString (bytes [0xED; 0xA0; 0x80]) = (utf8.RuneError, 1%nat).
Proof. reflexivity. Qed.

Example DecodeLast_three_bytes :
  utf8.DecodeLastRuneInString (rev (list_ascii_of_string (bytes [0x41; 0xE4; 0xB8; 0xAD])))
  = (0x4E2D, 3%nat).
Proof. reflexivity. Qed.

Example DecodeLast_stray_continuation :
  utf8.DecodeLastRuneInString (rev (list_ascii_of_string (bytes [0x41; 0x80])))
  = (utf8.RuneError, 1%nat).
Proof. reflexivity. Qed.

Example DecodeLast_long_run :
  utf8.DecodeLastRuneInString
    (rev (list_ascii_of_string (bytes [0x80; 0x80; 0x80; 0x80; 0x80; 0x80])))
  = (utf8.RuneError, 1%nat).
Proof. reflexivity. Qed.

Example TrimSpace_ascii : strings.TrimSpace "  .a  " = ".a".
Proof. reflexivity. Qed.

Example TrimSpace_inner_space : strings.TrimSpace " .a | .b " = ".a | .b".
Proof. reflexivity. Qed.

Example TrimSpace_control :
  strings.TrimSpace (bytes [0x09; 0x0A; 0x2E; 0x0D; 0x0B; 0x0C]) = ".".
Proof. reflexivity. Qed.

Example TrimSpace_unicode :
  strings.TrimSpace
    (utf8.string_of_runes [0x3000; 0x20; 0x2E; 0x4E2D; 0xA0; 0x2003; 0x85])
  = utf8.string_of_runes [0x2E; 0x4E2D].
Proof. reflexivity. Qed.

Example TrimSpace_unicode_tail :
  strings.TrimSpace (utf8.string_of_runes [0x20; 0x2E; 0x61; 0x2028]) = ".a".
Proof. reflexivity. Qed.

Example TrimSpace_invalid_tail :
  strings.TrimSpace (bytes [0x2E; 0x61; 0xE3; 0x80; 0x20]) = bytes [0x2E; 0x61; 0xE3; 0x80].
Proof. reflexivity. Qed.

Example TrimSpace_zero_width_space_stays :
  strings.TrimSpace (utf8.string_of_runes [0x200B])
  = utf8.string_of_runes [0x200B].
Proof. reflexivity. Qed.

Example ReplaceCRLF_pairs :
  strings.ReplaceCRLF (bytes [0x61; 0x0D; 0x0A; 0x0D; 0x0D; 0x0A; 0x62; 0x0D])
  = bytes [0x61; 0x0A; 0x0D; 0x0A; 0x62; 0x0D].
Proof. reflexivity. Qed.

Example SplitLF_trailing_newline :
  strings.SplitLF ("a" ++ newline ++ "b" ++ newline) = ["a"; "b"; ""].
Proof. reflexivity. Qed.

Example SplitLF_empty : strings.SplitLF "" = [""].
Proof. reflexivity. Qed.

Example Height_of_empty : lipgloss.Height "" = 1.
Proof. reflexivity. Qed.

Example Height_of_two_lines : lipgloss.Height ("a" ++ newline ++ "b") = 2.
Proof. reflexivity. Qed.

Example wrap_max : goint.add (2 ^ 63 - 1) 1 = - 2 ^ 63.
Proof. reflexivity. Qed.

Example NewBinding_eval :
  eval defaultKeyMap
  = {| key.keys := ["enter"];
       key.help := {| key.Key := "enter"; key.Desc := "eval" |};
       key.disabled := false |}.
Proof. reflexivity. Qed.

(** * Properties *)

Unset Implicit Arguments.

(** ** Go integers *)

Lemma wrap_in_range (z : Z) : goint.in_range z -> goint.wrap z = z.
Proof.
  unfold goint.in_range, goint.wrap. intros Hz.
  rewrite Z.mod_small by lia. lia.
Qed.

(** ** Lines *)

Lemma SplitLF_not_nil (s : string) : strings.SplitLF s <> [].
Proof.
  induction s as [|c t IH]; simpl; [discriminate|].
  destruct (Ascii.eqb c strings.LF); [discriminate|].
  destruct (strings.SplitLF t); discriminate.
Qed.

(** Joining the lines that [strings.Split] made gives the text back. *)
Lemma JoinLF_SplitLF (s : string) : strings.JoinLF (strings.SplitLF s) = s.
Proof.
  induction s as [|c t IH]; [reflexivity|].
  simpl. destruct (Ascii.eqb c strings.LF) eqn:Hc.
  - apply Ascii.eqb_eq in Hc. subst c.
    pose proof (SplitLF_not_nil t) as Hne.
    simpl. destruct (strings.SplitLF t) as [|l ls]; [contradiction|].
    simpl in IH |- *. now rewrite IH.
  - pose proof (SplitLF_not_nil t) as Hne.
    destruct (strings.SplitLF t) as [|l ls]; [contradiction|].
    destruct ls as [|l' ls]; simpl in IH |- *; now rewrite <- IH.
Qed.

(** ** Trimming *)

(** The loops of [TrimLeftFunc] and [TrimRightFunc] pass at least one
    byte at each turn, so the length of the string is fuel enough: more
    fuel gives the same result. *)
Lemma Decode_width_pos (c : ascii) (t : string) :
  (1 <= snd (utf8.DecodeRuneInString (String c t)))%nat.
Proof.
  unfold utf8.DecodeRuneInString.
  repeat match goal with
         | |- context [match ?x with _ => _ end] => destruct x
         end; cbn [snd]; lia.
Qed.

Lemma DecodeLast_width_pos (c : ascii) (r : list ascii) :
  (1 <= snd (utf8.DecodeLastRuneInString (c :: r)))%nat.
Proof.
  unfold utf8.DecodeLastRuneInString.
  destruct (byte_val c <? utf8.RuneSelf); [cbn; lia|].
  destruct (utf8.DecodeRuneInString _) as [rn size].
  destruct (size =? _)%nat eqn:E; [|cbn; lia].
  apply Nat.eqb_eq in E. cbn [snd]. lia.
Qed.

Lemma length_drop (n : nat) (s : string) :
  String.length (drop n s) = (String.length s - n)%nat.
Proof.
  revert s. induction n as [|n IH]; intros [|c t]; cbn; auto.
Qed.

Lemma trimLeftLoop_fuel (f : utf8.rune -> bool) (fuel1 : nat) :
  forall (fuel2 : nat) (s : string),
  (String.length s <= fuel1)%nat -> (String.length s <= fuel2)%nat ->
  strings.trimLeftLoop f fuel1 s = strings.trimLeftLoop f fuel2 s.
Proof.
  induction fuel1 as [|fuel1 IH]; intros fuel2 [|c t] H1 H2;
    try (destruct fuel2; reflexivity); cbn in H1, H2; try lia.
  destruct fuel2 as [|fuel2]; [lia|].
  cbn [strings.trimLeftLoop].
  pose proof (Decode_width_pos c t) as Hw.
  destruct (utf8.DecodeRuneInString (String c t)) as [r w]. cbn [snd] in Hw.
  destruct (f r); [|reflexivity].
  apply IH; rewrite length_drop; cbn [String.length] in *; lia.
Qed.

Lemma trimLeftLoop_enough (f : utf8.rune -> bool) (fuel : nat) (s : string) :
  (String.length s <= fuel)%nat ->
  strings.trimLeftLoop f fuel s = strings.TrimLeftFunc f s.
Proof.
  intros Hf. unfold strings.TrimLeftFunc. now apply trimLeftLoop_fuel.
Qed.

Lemma trimRightLoop_fuel (f : utf8.rune -> bool) (fuel1 : nat) :
  forall (fuel2 : nat) (rev_s : list ascii) (suffix : string),
  (List.length rev_s <= fuel1)%nat -> (List.length rev_s <= fuel2)%nat ->
  strings.trimRightLoop f fuel1 rev_s suffix
  = strings.trimRightLoop f fuel2 rev_s suffix.
Proof.
  induction fuel1 as [|fuel1 IH]; intros fuel2 [|c r] suffix H1 H2;
    try (destruct fuel2; reflexivity); cbn in H1, H2; try lia.
  destruct fuel2 as [|fuel2]; [lia|].
  cbn [strings.trimRightLoop].
  pose proof (DecodeLast_width_pos c r) as Hw.
  destruct (utf8.DecodeLastRuneInString (c :: r)) as [rn size].
  cbn [snd] in Hw.
  destruct (f rn); [|reflexivity].
  apply IH; rewrite length_skipn; cbn [List.length] in *; lia.
Qed.

Lemma trimRightLoop_enough (f : utf8.rune -> bool) (fuel : nat) (s : string) :
  (String.length s <= fuel)%nat ->
  strings.trimRightLoop f fuel (rev (list_ascii_of_string s)) ""
  = strings.TrimRightFunc f s.
Proof.
  intros Hf. unfold strings.TrimRightFunc.
  assert (Hlen : List.length (rev (list_ascii_of_string s)) = String.length s).
  { rewrite length_rev. clear. induction s as [|c t IH]; cbn; congruence. }
  apply trimRightLoop_fuel; rewrite Hlen; lia.
Qed.

(** The runes that [unicode.IsSpace] accepts. *)
Definition space_runes : list utf8.rune :=
  [0x09; 0x0A; 0x0B; 0x0C; 0x0D; 0x20;
   0x85; 0xA0; 0x1680;
   0x2000; 0x2001; 0x2002; 0x2003; 0x2004; 0x2005; 0x2006; 0x2007; 0x2008;
   0x2009; 0x200A; 0x2028; 0x2029; 0x202F; 0x205F; 0x3000].

Lemma IsSpace_space_runes (r : utf8.rune) :
  unicode.IsSpace r = true <-> In r space_runes.
Proof.
  unfold unicode.IsSpace, space_runes. split.
  - intros Hs. destruct ((0 <=? r) && (r <=? 255)) eqn:E.
    + rewrite !orb_true_iff, !andb_true_iff, !Z.leb_le, !Z.eqb_eq in Hs.
      simpl. lia.
    + rewrite !orb_true_iff, !andb_true_iff, !Z.leb_le, !Z.eqb_eq in Hs.
      simpl. lia.
  - intros Hin. simpl in Hin.
    repeat (destruct Hin as [Hin|Hin]; [subst r; reflexivity|]).
    contradiction.
Qed.

Lemma drop_append (a b : string) : drop (String.length a) (a ++ b) = b.
Proof. induction a as [|c a IH]; [reflexivity|exact IH]. Qed.

(** Decoding gives back a space rune that was encoded, whatever
    follows it. *)
Lemma Decode_Encode_space (r : utf8.rune) (tail : string) :
  In r space_runes ->
  utf8.DecodeRuneInString (utf8.EncodeRune r ++ tail)
  = (r, String.length (utf8.EncodeRune r))
  /\ is_empty (utf8.EncodeRune r) = false.
Proof.
  intros Hin. simpl in Hin.
  repeat (destruct Hin as [Hin|Hin]; [subst r; split; reflexivity|]).
  contradiction.
Qed.

Lemma trimLeftLoop_spaces (rs : list utf8.rune) :
  forallb unicode.IsSpace rs = true ->
  forall fuel : nat,
  strings.trimLeftLoop unicode.IsSpace fuel (utf8.string_of_runes rs) = "".
Proof.
  induction rs as [|r rs IH]; intros Hall fuel.
  - destruct fuel; reflexivity.
  - destruct fuel as [|fuel]; [reflexivity|].
    cbn [forallb] in Hall. apply andb_prop in Hall. destruct Hall as [Hr Hall].
    destruct (Decode_Encode_space r (utf8.string_of_runes rs)) as [Hdec Hne];
      [now apply IsSpace_space_runes|].
    cbn [utf8.string_of_runes strings.trimLeftLoop].
    destruct (utf8.EncodeRune r ++ utf8.string_of_runes rs) as [|c t] eqn:Es.
    + reflexivity.
    + rewrite Hdec, Hr, <- Es, drop_append. apply IH, Hall.
Qed.

Lemma TrimFunc_spaces (rs : list utf8.rune) :
  forallb unicode.IsSpace rs = true ->
  strings.TrimFunc unicode.IsSpace (utf8.string_of_runes rs) = "".
Proof.
  intros Hall. unfold strings.TrimFunc, strings.TrimLeftFunc.
  rewrite trimLeftLoop_spaces by exact Hall. reflexivity.
Qed.

(** The first loop of [TrimSpace] on a leading space rune: an ASCII
    space is skipped, and any other one starts the Unicode-aware path. *)
Lemma TrimSpace_head_space (r : utf8.rune) (tail : string) :
  In r space_runes ->
  strings.TrimSpace (utf8.EncodeRune r ++ tail) = strings.TrimSpace tail
  \/ strings.TrimSpace (utf8.EncodeRune r ++ tail)
     = strings.TrimFunc unicode.IsSpace (utf8.EncodeRune r ++ tail).
Proof.
  intros Hin. simpl in Hin.
  repeat (destruct Hin as [Hin|Hin];
          [subst r; first [left; reflexivity|right; reflexivity]|]).
  contradiction.
Qed.

(** A text of space runes only is trimmed to the empty string. *)
Lemma TrimSpace_spaces (rs : list utf8.rune) :
  forallb unicode.IsSpace rs = true ->
  strings.TrimSpace (utf8.string_of_runes rs) = "".
Proof.
  induction rs as [|r rs IH]; intros Hall; [reflexivity|].
  pose proof Hall as Hall'.
  cbn [forallb] in Hall. apply andb_prop in Hall. destruct Hall as [Hr Hrs].
  apply IsSpace_space_runes in Hr.
  cbn [utf8.string_of_runes].
  destruct (TrimSpace_head_space r (utf8.string_of_runes rs) Hr) as [E|E];
    rewrite E.
  - apply IH, Hrs.
  - exact (TrimFunc_spaces (r :: rs) Hall').
Qed.

Section Properties.
Context {P : Platform} {W : Widgets} {H : Host}.

(** ** The viewport *)

Lemma maxYOffset_nonneg (v : viewport.Model) : 0 <= viewport.maxYOffset v.
Proof. unfold viewport.maxYOffset. lia. Qed.

Lemma clamp_0_0 (high : Z) : 0 <= high -> viewport.clamp 0 0 high = 0.
Proof.
  intros Hh. unfold viewport.clamp.
  destruct (high <? 0) eqn:E; [apply Z.ltb_lt in E; lia|]. lia.
Qed.

Lemma clamp_high_0 (high : Z) : 0 <= high -> viewport.clamp high 0 high = high.
Proof.
  intros Hh. unfold viewport.clamp.
  destruct (high <? 0) eqn:E; [apply Z.ltb_lt in E; lia|]. lia.
Qed.

Lemma lines_SetContent (s : string) (v : viewport.Model) :
  viewport.lines (viewport.SetContent s v)
  = strings.SplitLF (strings.ReplaceCRLF s).
Proof.
  unfold viewport.SetContent.
  destruct (_ <? _); reflexivity.
Qed.

Lemma lines_GotoTop (v : viewport.Model) :
  viewport.lines (viewport.GotoTop v) = viewport.lines v.
Proof. unfold viewport.GotoTop. destruct (viewport.AtTop v); reflexivity. Qed.

Lemma AtTop_GotoTop (v : viewport.Model) :
  viewport.AtTop (viewport.GotoTop v) = true.
Proof.
  unfold viewport.GotoTop. destruct (viewport.AtTop v) eqn:E; [exact E|].
  unfold viewport.AtTop, viewport.SetYOffset. simpl.
  rewrite clamp_0_0 by apply maxYOffset_nonneg. reflexivity.
Qed.

Lemma YOffset_GotoTop (v : viewport.Model) :
  0 <= viewport.YOffset v -> viewport.YOffset (viewport.GotoTop v) = 0.
Proof.
  intros Hy. unfold viewport.GotoTop, viewport.AtTop.
  destruct (viewport.YOffset v <=? 0) eqn:E.
  - apply Z.leb_le in E. lia.
  - unfold viewport.SetYOffset. simpl.
    apply clamp_0_0, maxYOffset_nonneg.
Qed.

Lemma YOffset_SetContent_nonneg (s : string) (v : viewport.Model) :
  0 <= viewport.YOffset v -> 0 <= viewport.YOffset (viewport.SetContent s v).
Proof.
  intros Hy. unfold viewport.SetContent.
  destruct (_ <? _); [|exact Hy].
  unfold viewport.GotoBottom, viewport.SetYOffset. simpl.
  rewrite clamp_high_0; apply maxYOffset_nonneg.
Qed.

(** [SetContent] and [GotoTop] touch the lines and the offset only. *)
Definition same_frame (v v' : viewport.Model) : Prop :=
  viewport.Width v' = viewport.Width v
  /\ viewport.Height v' = viewport.Height v
  /\ viewport.KeyMap v' = viewport.KeyMap v
  /\ viewport.MouseWheelEnabled v' = viewport.MouseWheelEnabled v
  /\ viewport.MouseWheelDelta v' = viewport.MouseWheelDelta v
  /\ viewport.YPosition v' = viewport.YPosition v
  /\ viewport.Style v' = viewport.Style v
  /\ viewport.HighPerformanceRendering v' = viewport.HighPerformanceRendering v
  /\ viewport.initialized v' = viewport.initialized v.

Lemma same_frame_SetContent (s : string) (v : viewport.Model) :
  same_frame v (viewport.SetContent s v).
Proof.
  unfold viewport.SetContent. destruct (_ <? _); repeat split.
Qed.

Lemma same_frame_GotoTop (v : viewport.Model) :
  same_frame v (viewport.GotoTop v).
Proof.
  unfold viewport.GotoTop. destruct (viewport.AtTop v); repeat split.
Qed.

Lemma same_frame_trans (a b c : viewport.Model) :
  same_frame a b -> same_frame b c -> same_frame a c.
Proof. unfold same_frame. intuition congruence. Qed.

(** ** The effective expression *)

Lemma Or_default (s : string) :
  cmp.Or [s; "."] = if is_empty s then "." else s.
Proof. simpl. destruct (is_empty s); reflexivity. Qed.

Lemma jqFilter_not_empty (m : model) : is_empty (jqFilter m) = false.
Proof.
  unfold jqFilter. rewrite Or_default.
  destruct (strings.TrimSpace _) eqn:E; reflexivity.
Qed.

Lemma Or_jqFilter (m : model) : cmp.Or [jqFilter m; "."] = jqFilter m.
Proof. rewrite Or_default, jqFilter_not_empty. reflexivity. Qed.

(** C2: the effective expression is the trimmed text of the input
    field, or [.] when the trimmed text is empty; so for a text that is
    empty or made of spaces only (the runes of [unicode.IsSpace]) the
    expression is [.], and evaluating any document with it is
    evaluating the document with [.]: the same run, the same result, the
    same world.  [jq] itself also takes the empty filter for [.]. *)
Theorem blank_filter_is_identity (m : model) (doc : string) (w : World) :
  jqFilter m
  = (let text := strings.TrimSpace (textinput.Value (textinput m)) in
     if is_empty text then "." else text)
  /\ jq doc "" w = jq doc "." w
  /\ (forallb unicode.IsSpace (textinput.value (textinput m)) = true ->
      jqFilter m = "."
      /\ jq doc (jqFilter m) w = jq doc "." w).
Proof.
  split; [apply Or_default|].
  split; [reflexivity|].
  intros Hblank.
  assert (Hf : jqFilter m = ".").
  { unfold jqFilter, textinput.Value.
    now rewrite (TrimSpace_spaces _ Hblank). }
  split; [exact Hf|now rewrite Hf].
Qed.

(** ** Submission *)

(** C1: in the input-focused state a submit key runs the engine once,
    on the document and the effective expression; the output becomes
    [result] and the content of the viewport, and the viewport is
    scrolled to the top whatever its offset was.  [SetContent] keeps the
    text as lines, with the line endings normalised. *)
Theorem submit_input_focused (m : model) (k : key_msg) (w : World) :
  key_String k = "enter" ->
  focusViewport m = false ->
  let args := ["jq"; "--color-output"; jqFilter m] in
  let run := exec_Run (execs w) args (content m) in
  let out := combined run in
  let m' :=
    set_viewport (viewport.GotoTop (viewport.SetContent out (viewport m)))
                 (set_result out m) in
  let w' := {| execs := (execs w ++ [{| argv := args; stdin := content m;
                                        outcome := run |}])%list;
               stdout := stdout w |} in
  Update m (tea.KeyMsg k) w = ((m', None), w')
  /\ result m' = out
  /\ viewport.lines (viewport m') = strings.SplitLF (strings.ReplaceCRLF out)
  /\ viewport.content (viewport m') = strings.ReplaceCRLF out
  /\ viewport.AtTop (viewport m') = true
  /\ (0 <= viewport.YOffset (viewport m) ->
      viewport.YOffset (viewport m') = 0)
  /\ same_frame (viewport m) (viewport m')
  /\ content m' = content m /\ help m' = help m /\ keys m' = keys m
  /\ textinput m' = textinput m /\ ready m' = ready m
  /\ focusViewport m' = focusViewport m.
Proof.
  intros Hk Hfv args run out m' w'.
  assert (Hlines : viewport.lines (viewport m')
                   = strings.SplitLF (strings.ReplaceCRLF out)).
  { subst m'. simpl. rewrite lines_GotoTop. apply lines_SetContent. }
  split.
  { unfold Update. rewrite Hk. simpl. rewrite Hfv. simpl.
    unfold jq, bind, exec_Cmd_Run, ret. rewrite Or_jqFilter. reflexivity. }
  split; [reflexivity|].
  split; [exact Hlines|].
  split.
  { unfold viewport.content. rewrite Hlines. apply JoinLF_SplitLF. }
  split.
  { subst m'. simpl. apply AtTop_GotoTop. }
  split.
  { intros Hy. subst m'. simpl.
    apply YOffset_GotoTop, YOffset_SetContent_nonneg, Hy. }
  split.
  { subst m'. simpl.
    eapply same_frame_trans;
      [apply same_frame_SetContent|apply same_frame_GotoTop]. }
  repeat split.
Qed.

(** C4: in the viewport-focused state a submit key changes nothing: the
    model is returned as it is, no command is produced, and the world,
    with its list of engine runs, is the same. *)
Theorem submit_viewport_focused (m : model) (k : key_msg) (w : World) :
  key_String k = "enter" ->
  focusViewport m = true ->
  Update m (tea.KeyMsg k) w = ((m, None), w).
Proof.
  intros Hk Hfv. unfold Update. rewrite Hk. simpl. rewrite Hfv. reflexivity.
Qed.

(** C10: a message that is neither a resize nor a key leaves the model
    as it is, produces no command and does nothing to the world. *)
Theorem Update_other_message (m : model) (msg : tea.Msg) (w : World) :
  (forall width height, msg <> tea.WindowSizeMsg width height) ->
  (forall k, msg <> tea.KeyMsg k) ->
  Update m msg w = ((m, None), w).
Proof.
  intros Hsize Hkey. destruct msg as [width height|k| |o].
  - exfalso. exact (Hsize width height eq_refl).
  - exfalso. exact (Hkey k eq_refl).
  - reflexivity.
  - reflexivity.
Qed.

(** ** Runs *)

Lemma steps_cons (msg : tea.Msg) (rest : list tea.Msg) (m : model) (w : World) :
  steps (msg :: rest) m w
  = steps rest (fst (fst (Update m msg w))) (snd (Update m msg w)).
Proof.
  cbn [steps]. unfold bind.
  destruct (Update m msg w) as [[m' c] w']. reflexivity.
Qed.

Lemma states_cons (msg : tea.Msg) (rest : list tea.Msg) (m : model) (w : World) :
  states (msg :: rest) m w
  = fst (fst (Update m msg w))
    :: states rest (fst (fst (Update m msg w))) (snd (Update m msg w)).
Proof.
  cbn [states]. destruct (Update m msg w) as [[m' c] w']. reflexivity.
Qed.

(** ** Focus *)

(** What the focus key does to a model. *)
Definition toggled (m : model) : model :=
  let m1 :=
    if negb (focusViewport m) then
      set_keys (set_eval (key.SetEnabled false (eval (keys m))) (keys m))
               (set_textinput (textinput.Blur (textinput m)) m)
    else
      set_keys (set_eval (key.SetEnabled true (eval (keys m))) (keys m))
               (set_textinput (fst (textinput.Focus (textinput m))) m) in
  set_focusViewport (negb (focusViewport m)) m1.

Lemma Update_tab (m : model) (k : key_msg) (w : World) :
  key_String k = "tab" -> Update m (tea.KeyMsg k) w = ((toggled m, None), w).
Proof.
  intros Hk. unfold Update. rewrite Hk. simpl.
  unfold toggled, ret.
  destruct (focusViewport m) eqn:E; simpl; rewrite E; reflexivity.
Qed.

Lemma focus_Focus (t : textinput.Model) :
  textinput.focus (fst (textinput.Focus t)) = true.
Proof. unfold textinput.Focus. destruct (cursor_Focus _). reflexivity. Qed.

Lemma value_Focus (t : textinput.Model) :
  textinput.value (fst (textinput.Focus t)) = textinput.value t.
Proof. unfold textinput.Focus. destruct (cursor_Focus _). reflexivity. Qed.

Lemma toggled_facts (m : model) :
  focusViewport (toggled m) = negb (focusViewport m)
  /\ textinput.focus (textinput (toggled m)) = focusViewport m
  /\ key.disabled (eval (keys (toggled m))) = negb (focusViewport m).
Proof.
  unfold toggled. destruct (focusViewport m); simpl.
  - rewrite focus_Focus. auto.
  - auto.
Qed.

(** From a model in which the input field has the focus, [n] focus keys
    leave the viewport focused exactly when [n] is odd. *)
Lemma toggle_focus_from (ks : list key_msg) :
  Forall (fun k => key_String k = "tab") ks ->
  forall (m : model) (w : World),
  textinput.focus (textinput m) = negb (focusViewport m) ->
  key.disabled (eval (keys m)) = focusViewport m ->
  let m' := fst (steps (map tea.KeyMsg ks) m w) in
  focusViewport m' = xorb (focusViewport m) (Nat.odd (List.length ks))
  /\ textinput.focus (textinput m') = negb (focusViewport m')
  /\ key.disabled (eval (keys m')) = focusViewport m'
  /\ snd (steps (map tea.KeyMsg ks) m w) = w.
Proof.
  induction 1 as [|k ks Hk _ IH]; intros m w Hf Hd.
  - simpl. rewrite xorb_false_r. auto.
  - cbn [map List.length]. rewrite steps_cons, (Update_tab m k w Hk).
    cbn [fst snd].
    destruct (toggled_facts m) as (Hv & Hf' & Hd').
    specialize (IH (toggled m) w).
    rewrite Hv, Hf', Hd' in IH.
    destruct IH as (IH1 & IH2 & IH3 & IH4);
      [now rewrite negb_involutive|reflexivity|].
    cbv zeta in *. rewrite Nat.odd_succ, <- Nat.negb_odd.
    split; [|auto].
    rewrite IH1.
    destruct (focusViewport m), (Nat.odd (List.length ks)); reflexivity.
Qed.

(** ** The initial model *)

Lemma newModel_eq (doc : string) (w : World) :
  let args := ["jq"; "--color-output"; "."] in
  let run := exec_Run (execs w) args doc in
  newModel doc w
  = ({| help := help.New; content := doc; result := combined run;
        viewport := viewport.zero; keys := defaultKeyMap;
        textinput :=
          textinput.set_Placeholder "jq filter"
            (fst (textinput.Focus textinput.New));
        ready := false; focusViewport := false |},
     {| execs := (execs w ++ [{| argv := args; stdin := doc;
                                 outcome := run |}])%list;
        stdout := stdout w |}).
Proof. reflexivity. Qed.

(** C8: from the initial model, after [n] focus keys the viewport is
    focused exactly when [n] is odd, the input field has the focus and
    the submit binding is enabled exactly when [n] is even, and no engine
    is run; and any single focus key flips the focus, blurring the input
    field and disabling the submit binding when it leaves the input
    field, focusing the one and enabling the other when it comes back. *)
Theorem toggle_focus_alternates (doc : string) (ks : list key_msg) (w0 : World) :
  Forall (fun k => key_String k = "tab") ks ->
  let m0 := fst (newModel doc w0) in
  let w1 := snd (newModel doc w0) in
  let m := fst (steps (map tea.KeyMsg ks) m0 w1) in
  let n := List.length ks in
  (focusViewport m = Nat.odd n
   /\ textinput.focus (textinput m) = Nat.even n
   /\ key.Enabled (eval (keys m)) = Nat.even n
   /\ snd (steps (map tea.KeyMsg ks) m0 w1) = w1)
  /\ (forall (m : model) (k : key_msg) (w : World),
      key_String k = "tab" ->
      Update m (tea.KeyMsg k) w = ((toggled m, None), w)
      /\ focusViewport (toggled m) = negb (focusViewport m)
      /\ (focusViewport m = false ->
          textinput.focus (textinput (toggled m)) = false
          /\ key.disabled (eval (keys (toggled m))) = true
          /\ key.Enabled (eval (keys (toggled m))) = false)
      /\ (focusViewport m = true ->
          textinput.focus (textinput (toggled m)) = true
          /\ key.disabled (eval (keys (toggled m))) = false)).
Proof.
  intros Hks m0 w1 m n. split.
  - assert (Hkeys : forall m', key.keys (eval (keys (toggled m')))
                               = key.keys (eval (keys m'))).
    { intros m'. unfold toggled. destruct (focusViewport m'); reflexivity. }
    assert (Hsteps : key.keys (eval (keys m)) = ["enter"]).
    { subst m. clear n. generalize m0 w1 (eq_refl : key.keys (eval (keys m0)) = ["enter"]).
      induction Hks as [|k ks Hk _ IH]; intros a w Ha; [exact Ha|].
      cbn [map]. rewrite steps_cons, (Update_tab a k w Hk). cbn [fst snd].
      apply IH. now rewrite Hkeys. }
    destruct (toggle_focus_from ks Hks m0 w1) as (H1 & H2 & H3 & H4).
    + subst m0. rewrite newModel_eq. simpl. apply focus_Focus.
    + reflexivity.
    + cbv zeta in H1, H2, H3. fold m in H1, H2, H3.
      assert (Hv : focusViewport m = Nat.odd n) by (rewrite H1; reflexivity).
      repeat split.
      * exact Hv.
      * rewrite H2, Hv. apply Nat.negb_odd.
      * unfold key.Enabled. rewrite H3, Hsteps, Hv. simpl.
        rewrite andb_true_r. apply Nat.negb_odd.
      * exact H4.
  - intros a k w Hk. destruct (toggled_facts a) as (Hv & Hf & Hd).
    split; [exact (Update_tab a k w Hk)|].
    split; [exact Hv|].
    split; intros Ha; rewrite Ha in *.
    + unfold key.Enabled. rewrite Hd. auto.
    + auto.
Qed.

(** ** Resizing *)

Definition resize (size : Z * Z) : tea.Msg :=
  tea.WindowSizeMsg (fst size) (snd size).

(** The model after the first resize, and after a later one. *)
Definition first_layout (width height : Z) (m : model) : model :=
  let v := viewport.New width (goint.sub height (margin m)) in
  let v := viewport.set_HighPerformanceRendering false v in
  let v := viewport.SetContent (result m) v in
  set_help (help.set_Width width (help m))
    (set_textinput (textinput.set_Width width (textinput m))
       (set_ready true (set_viewport v m))).

Definition next_layout (width height : Z) (m : model) : model :=
  let v := viewport.set_Width width (viewport m) in
  let v := viewport.set_Height (goint.sub height (margin m)) v in
  set_help (help.set_Width width (help m))
    (set_textinput (textinput.set_Width width (textinput m))
       (set_viewport v m)).

Lemma Update_resize (m : model) (width height : Z) (w : World) :
  Update m (tea.WindowSizeMsg width height) w
  = ((if ready m then next_layout width height m
      else first_layout width height m, None), w).
Proof.
  unfold Update, ret, first_layout, next_layout, margin.
  destruct (ready m); reflexivity.
Qed.

Lemma ready_after_resize (m : model) (width height : Z) :
  ready (if ready m then next_layout width height m
         else first_layout width height m) = true.
Proof. destruct (ready m) eqn:E; simpl; auto. Qed.

(** What a later resize keeps of the viewport: everything but the two
    dimensions. *)
Definition same_view (v v' : viewport.Model) : Prop :=
  viewport.lines v' = viewport.lines v
  /\ viewport.YOffset v' = viewport.YOffset v
  /\ viewport.KeyMap v' = viewport.KeyMap v
  /\ viewport.MouseWheelEnabled v' = viewport.MouseWheelEnabled v
  /\ viewport.MouseWheelDelta v' = viewport.MouseWheelDelta v
  /\ viewport.YPosition v' = viewport.YPosition v
  /\ viewport.Style v' = viewport.Style v
  /\ viewport.HighPerformanceRendering v' = viewport.HighPerformanceRendering v
  /\ viewport.initialized v' = viewport.initialized v.

Lemma same_view_refl (v : viewport.Model) : same_view v v.
Proof. repeat split. Qed.

Lemma same_view_trans (a b c : viewport.Model) :
  same_view a b -> same_view b c -> same_view a c.
Proof. unfold same_view. intuition congruence. Qed.

Lemma same_view_next_layout (width height : Z) (m : model) :
  same_view (viewport m) (viewport (next_layout width height m)).
Proof. repeat split. Qed.

(** Once the model is ready, resizes keep it ready and keep the view. *)
Lemma resizes_keep_view (sizes : list (Z * Z)) :
  forall (m : model) (w : World),
  ready m = true ->
  Forall (fun m' => ready m' = true /\ same_view (viewport m) (viewport m'))
         (states (map resize sizes) m w).
Proof.
  induction sizes as [|[width height] sizes IH]; intros m w Hr.
  - constructor.
  - cbn [map]. unfold resize at 1. cbn [fst snd].
    rewrite states_cons, Update_resize, Hr. cbn [fst snd].
    constructor.
    + split; [exact Hr|apply same_view_next_layout].
    + specialize (IH (next_layout width height m) w Hr).
      eapply Forall_impl; [|exact IH].
      intros m' [Hr' Hv]. split; [exact Hr'|].
      eapply same_view_trans; [apply same_view_next_layout|exact Hv].
Qed.

(** C5: the first resize makes the model ready and builds the viewport
    from the terminal size and the current result; a resize of a ready
    model sets the width and the height of the viewport (the terminal
    height less the heights of the input field and of the help) and
    keeps its lines, its offset and the rest of it; so in a sequence of
    resizes the model becomes ready at the first and stays ready, and
    the view that the first one built is kept by all the others.  A
    resize also sets the widths of the input field and of the help. *)
Theorem resize_layout :
  (forall (m : model) (width height : Z) (w : World),
      ready m = false ->
      let m' := first_layout width height m in
      Update m (tea.WindowSizeMsg width height) w = ((m', None), w)
      /\ ready m' = true
      /\ viewport m'
         = viewport.SetContent (result m)
             (viewport.New width (goint.sub height (margin m)))
      /\ viewport.lines (viewport m')
         = strings.SplitLF (strings.ReplaceCRLF (result m))
      /\ viewport.content (viewport m') = strings.ReplaceCRLF (result m)
      /\ viewport.Width (viewport m') = width
      /\ viewport.Height (viewport m') = goint.sub height (margin m))
  /\ (forall (m : model) (width height : Z) (w : World),
      ready m = true ->
      let m' := next_layout width height m in
      Update m (tea.WindowSizeMsg width height) w = ((m', None), w)
      /\ ready m' = true
      /\ same_view (viewport m) (viewport m')
      /\ viewport.Width (viewport m') = width
      /\ viewport.Height (viewport m') = goint.sub height (margin m)
      /\ textinput m' = textinput.set_Width width (textinput m)
      /\ help m' = help.set_Width width (help m)
      /\ content m' = content m /\ result m' = result m
      /\ keys m' = keys m /\ focusViewport m' = focusViewport m)
  /\ (forall (m : model) (size : Z * Z) (sizes : list (Z * Z)) (w : World),
      ready m = false ->
      let m1 := first_layout (fst size) (snd size) m in
      states (map resize (size :: sizes)) m w
      = m1 :: states (map resize sizes) m1 w
      /\ Forall (fun m' => ready m' = true
                          /\ same_view (viewport m1) (viewport m'))
                (states (map resize (size :: sizes)) m w)).
Proof.
  split; [|split].
  - intros m width height w Hr m'.
    assert (Hv : viewport m'
                 = viewport.SetContent (result m)
                     (viewport.New width (goint.sub height (margin m))))
      by reflexivity.
    assert (Hl : viewport.lines (viewport m')
                 = strings.SplitLF (strings.ReplaceCRLF (result m)))
      by (rewrite Hv; apply lines_SetContent).
    split; [rewrite Update_resize, Hr; reflexivity|].
    split; [reflexivity|].
    split; [exact Hv|].
    split; [exact Hl|].
    split; [unfold viewport.content; rewrite Hl; apply JoinLF_SplitLF|].
    rewrite Hv.
    destruct (same_frame_SetContent (result m)
                (viewport.New width (goint.sub height (margin m))))
      as (Hw & Hh & _).
    split; [exact Hw|exact Hh].
  - intros m width height w Hr m'.
    split; [rewrite Update_resize, Hr; reflexivity|].
    split; [exact Hr|].
    split; [apply same_view_next_layout|].
    repeat split.
  - intros m size sizes w Hr m1.
    assert (Heq : states (map resize (size :: sizes)) m w
                  = m1 :: states (map resize sizes) m1 w).
    { cbn [map]. unfold resize at 1.
      rewrite states_cons, Update_resize, Hr. reflexivity. }
    split; [exact Heq|].
    rewrite Heq. constructor.
    + split; [reflexivity|apply same_view_refl].
    + apply resizes_keep_view. reflexivity.
Qed.

(** ** The document and the result *)

(** The two ways in which [Update] treats the world: it leaves it and
    the result alone, or it runs the engine once on the document and
    keeps the output as the result.  The document and the ready flag of
    a ready model are never changed. *)
Definition quiet_step (m m' : model) (w w' : World) : Prop :=
  w' = w /\ result m' = result m.

Definition submit_step (m m' : model) (w w' : World) : Prop :=
  focusViewport m = false
  /\ exists e : Execution,
      execs w' = (execs w ++ [e])%list
      /\ stdout w' = stdout w
      /\ argv e = ["jq"; "--color-output"; jqFilter m]
      /\ stdin e = content m
      /\ outcome e = exec_Run (execs w) (argv e) (stdin e)
      /\ result m' = combined (outcome e).

Lemma Update_step (m : model) (msg : tea.Msg) (w : World) :
  let m' := fst (fst (Update m msg w)) in
  let w' := snd (Update m msg w) in
  content m' = content m
  /\ (ready m = true -> ready m' = true)
  /\ (quiet_step m m' w w' \/ submit_step m m' w w').
Proof.
  destruct msg as [width height|k| |o].
  - rewrite Update_resize. cbn [fst snd].
    split; [destruct (ready m); reflexivity|].
    split; [intros _; apply ready_after_resize|].
    left. split; [reflexivity|]. destruct (ready m); reflexivity.
  - unfold Update.
    destruct (String.eqb (key_String k) "ctrl+c");
      [cbn; split; [|split]; auto; left; split; reflexivity|].
    destruct (String.eqb (key_String k) "tab").
    { cbn. split; [|split].
      - destruct (focusViewport m); reflexivity.
      - destruct (focusViewport m); auto.
      - left. split; [reflexivity|]. destruct (focusViewport m); reflexivity. }
    destruct (String.eqb (key_String k) "enter").
    { destruct (focusViewport m) eqn:Hfv; cbn [negb].
      - cbn. split; [|split]; auto. left. split; reflexivity.
      - unfold jq, bind, exec_Cmd_Run, ret. rewrite Or_jqFilter.
        cbn [fst snd].
        split; [reflexivity|]. split; [auto|].
        right. split; [exact Hfv|].
        eexists. cbn [execs stdout]. split; [reflexivity|].
        repeat split. }
    destruct (focusViewport m); cbn.
    + destruct (viewport_Update (viewport m) k) as [v c]. cbn.
      split; [|split]; auto. left. split; reflexivity.
    + destruct (textinput_Update (textinput m) k) as [t c]. cbn.
      split; [|split]; auto. left. split; reflexivity.
  - cbn. split; [|split]; auto. left. split; reflexivity.
  - cbn. split; [|split]; auto. left. split; reflexivity.
Qed.

(** The invariant of a session on the document [doc]: the model holds
    [doc], and its result is the combined output of the last engine
    run, which was made on [doc]. *)
Definition session_inv (doc : string) (m : model) (w : World) : Prop :=
  content m = doc
  /\ exists e : Execution,
      last_exec w = Some e
      /\ stdin e = doc
      /\ result m = combined (outcome e).

Lemma last_exec_app (w : World) (l : list Execution) (e : Execution) :
  execs w = (l ++ [e])%list -> last_exec w = Some e.
Proof. intros Hw. unfold last_exec. rewrite Hw, rev_unit. reflexivity. Qed.

Lemma session_inv_new (doc : string) (w0 : World) :
  session_inv doc (fst (newModel doc w0)) (snd (newModel doc w0)).
Proof.
  rewrite newModel_eq. cbn [fst snd]. split; [reflexivity|].
  eexists. split; [eapply last_exec_app; reflexivity|].
  split; reflexivity.
Qed.

Lemma session_inv_Update (doc : string) (m : model) (msg : tea.Msg) (w : World) :
  session_inv doc m w ->
  session_inv doc (fst (fst (Update m msg w))) (snd (Update m msg w)).
Proof.
  intros [Hc (e & He & Hin & Hres)].
  destruct (Update_step m msg w) as (Hc' & _ & [[Hw Hr]|[_ (e' & Hex & _ & _ & Hin' & _ & Hr)]]).
  - split; [congruence|]. exists e. rewrite Hw, Hr. auto.
  - split; [congruence|]. exists e'.
    split; [eapply last_exec_app; exact Hex|].
    split; [congruence|exact Hr].
Qed.

Lemma reachable_inv (doc : string) (w0 : World) (m : model) (w : World) :
  reachable doc w0 m w -> session_inv doc m w.
Proof.
  induction 1 as [|m w msg _ IH].
  - apply session_inv_new.
  - apply session_inv_Update, IH.
Qed.

Lemma steps_reachable (doc : string) (w0 : World) (msgs : list tea.Msg) :
  forall (m : model) (w : World),
  reachable doc w0 m w ->
  reachable doc w0 (fst (steps msgs m w)) (snd (steps msgs m w)).
Proof.
  induction msgs as [|msg rest IH]; intros m w Hr; [exact Hr|].
  rewrite steps_cons. apply IH. constructor. exact Hr.
Qed.

(** C9: in every state of a session, whatever messages led to it, the
    document of the model is the document the model was made from, and
    the result is the output of the last engine run, made on that
    document: the identity run of [newModel] or the run of the last
    submit; one more message keeps both. *)
Theorem document_and_result_invariant
  (doc : string) (w0 : World) (msgs : list tea.Msg) (msg : tea.Msg) :
  let m0 := fst (newModel doc w0) in
  let w1 := snd (newModel doc w0) in
  let m := fst (steps msgs m0 w1) in
  let w := snd (steps msgs m0 w1) in
  session_inv doc m w
  /\ session_inv doc (fst (fst (Update m msg w))) (snd (Update m msg w))
  /\ content (fst (fst (Update m msg w))) = content m
  /\ (exists e0 : Execution,
        last_exec w1 = Some e0
        /\ argv e0 = ["jq"; "--color-output"; "."] /\ stdin e0 = doc
        /\ result m0 = combined (outcome e0)).
Proof.
  intros m0 w1 m w.
  assert (Hr : reachable doc w0 m w).
  { apply steps_reachable. constructor. }
  split; [exact (reachable_inv doc w0 m w Hr)|].
  split; [apply session_inv_Update, (reachable_inv doc w0 m w Hr)|].
  split; [apply Update_step|].
  subst m0 w1. rewrite newModel_eq. cbn [fst snd].
  eexists. split; [eapply last_exec_app; reflexivity|]. repeat split.
Qed.

Lemma ready_stays (m : model) (msg : tea.Msg) (w : World) :
  ready m = true -> ready (fst (fst (Update m msg w))) = true.
Proof. apply Update_step. Qed.

Lemma stdout_Update (m : model) (msg : tea.Msg) (w : World) :
  stdout (snd (Update m msg w)) = stdout w.
Proof.
  destruct (Update_step m msg w) as (_ & _ & [[Hw _]|[_ (e & _ & Ho & _)]]).
  - now rewrite Hw.
  - exact Ho.
Qed.

Lemma stdout_steps (msgs : list tea.Msg) :
  forall (m : model) (w : World), stdout (snd (steps msgs m w)) = stdout w.
Proof.
  induction msgs as [|msg rest IH]; intros m w; [reflexivity|].
  rewrite steps_cons, IH. apply stdout_Update.
Qed.

(** ** The event loop *)

Definition is_quit (msg : tea.Msg) : bool :=
  match msg with tea.QuitMsg => true | _ => false end.

Lemma Program_Run_quit (pre post : list tea.Msg) :
  forallb (fun msg => negb (is_quit msg)) pre = true ->
  forall (m : model) (w : World),
  Program_Run (pre ++ tea.QuitMsg :: post) m w
  = ((fst (steps pre m w), None), snd (steps pre m w)).
Proof.
  induction pre as [|msg pre IH]; intros Hpre m w; [reflexivity|].
  cbn [forallb] in Hpre. apply andb_prop in Hpre. destruct Hpre as [Hmsg Hpre].
  rewrite steps_cons, <- (IH Hpre).
  cbn [app Program_Run]. unfold bind.
  destruct msg; try discriminate;
    destruct (Update m _ w) as [[m' c] w']; reflexivity.
Qed.

(** The loop returns an error only when no quit message arrived. *)
Lemma Program_Run_error (msgs : list tea.Msg) :
  forall (m : model) (w : World) (e : error),
  snd (fst (Program_Run msgs m w)) = Some e ->
  forallb (fun msg => negb (is_quit msg)) msgs = true.
Proof.
  induction msgs as [|msg rest IH]; intros m w e He; [reflexivity|].
  destruct msg as [width height|k| |o]; try discriminate;
    cbn [Program_Run] in He; unfold bind in He;
    destruct (Update m _ w) as [[m' c] w'];
    cbn [forallb is_quit negb andb]; exact (IH m' w' e He).
Qed.

(** [main] ends in [log.Fatal] only when the engine is not on the path,
    when the document cannot be read, or when the event loop fails. *)
Lemma main_Fatal_causes (w : World) (msg : string) :
  fst (main w) = Fatal msg ->
  exec_LookPath "jq" <> None
  \/ snd getContent <> None
  \/ forallb (fun msg => negb (is_quit msg)) incoming = true.
Proof.
  unfold main. destruct (exec_LookPath "jq"); [left; discriminate|].
  destruct getContent as [doc [err|]]; [right; left; discriminate|].
  unfold bind. destruct (newModel doc w) as [m0 w1].
  destruct (Program_Run incoming m0 w1) as [[m [e|]] w'] eqn:Hrun.
  - intros _. right. right.
    apply (Program_Run_error incoming m0 w1 e). now rewrite Hrun.
  - discriminate.
Qed.

(** ** The query executor *)

Definition fd_eqb (a b : fd) : bool :=
  match a, b with
  | Stdout, Stdout | Stderr, Stderr => true
  | _, _ => false
  end.

(** The text that a run wrote to one of its two streams. *)
Fixpoint stream_text (s : fd) (ws : list (fd * string)) : string :=
  match ws with
  | [] => ""
  | (s', chunk) :: rest =>
    if fd_eqb s s' then (chunk ++ stream_text s rest)%string
    else stream_text s rest
  end.

Lemma append_length (a b : string) :
  String.length (a ++ b) = (String.length a + String.length b)%nat.
Proof. induction a as [|c a IH]; simpl; [reflexivity|now rewrite IH]. Qed.

Lemma combined_length (ws : list (fd * string)) (e : option error) :
  String.length (combined {| writes := ws; run_err := e |})
  = (String.length (stream_text Stdout ws)
     + String.length (stream_text Stderr ws))%nat.
Proof.
  unfold combined. cbn [writes].
  induction ws as [|[s chunk] ws IH]; [reflexivity|].
  cbn [fold_right snd stream_text]. rewrite append_length, IH.
  destruct s; cbn [fd_eqb]; rewrite append_length; lia.
Qed.

Lemma combined_one_stream (s : fd) (ws : list (fd * string)) (e : option error) :
  Forall (fun c => fst c = s) ws ->
  combined {| writes := ws; run_err := e |} = stream_text s ws.
Proof.
  unfold combined. cbn [writes].
  induction 1 as [|[s' chunk] ws Hs _ IH]; [reflexivity|].
  cbn [fst] in Hs. subst s'.
  cbn [fold_right snd stream_text]. rewrite IH.
  destruct s; reflexivity.
Qed.

(** C3: whatever the engine wrote, to its standard output and to its
    standard error, comes back from [jq] as one text, in the order of
    the writes, and it does so whatever error [Cmd.Run] returned: the
    exit status is dropped, and [jq] has no error to return.  The run
    is the only thing [jq] does to the world; and the program ends in
    [log.Fatal] only for a missing engine, an unreadable document or a
    failed event loop, never for what an engine run returned. *)
Theorem jq_returns_combined_output
  (doc filter : string) (w : World)
  (ws : list (fd * string)) (e : option error) :
  let args := ["jq"; "--color-output"; cmp.Or [filter; "."]] in
  exec_Run (execs w) args doc = {| writes := ws; run_err := e |} ->
  let out := fst (jq doc filter w) in
  out = String.concat "" (map snd ws)
  /\ String.length out
     = (String.length (stream_text Stdout ws)
        + String.length (stream_text Stderr ws))%nat
  /\ (Forall (fun c => fst c = Stdout) ws -> out = stream_text Stdout ws)
  /\ (Forall (fun c => fst c = Stderr) ws -> out = stream_text Stderr ws)
  /\ snd (jq doc filter w)
     = {| execs := (execs w ++ [{| argv := args; stdin := doc;
                                   outcome := {| writes := ws;
                                                 run_err := e |} |}])%list;
          stdout := stdout w |}
  /\ (forall (w0 : World) (msg : string),
      fst (main w0) = Fatal msg ->
      exec_LookPath "jq" <> None
      \/ snd getContent <> None
      \/ forallb (fun msg => negb (is_quit msg)) incoming = true).
Proof.
  intros args Hrun out.
  assert (Hout : out = combined {| writes := ws; run_err := e |}).
  { subst out. unfold jq, bind, exec_Cmd_Run, ret. cbn [fst].
    fold args. now rewrite Hrun. }
  split.
  { rewrite Hout. unfold combined. cbn [writes]. clear.
    induction ws as [|[s chunk] ws IH]; [reflexivity|].
    cbn [fold_right map snd String.concat]. rewrite IH.
    destruct ws as [|c ws']; [|reflexivity].
    cbn. clear. induction chunk as [|a chunk IH]; cbn; [reflexivity|].
    now rewrite IH. }
  split; [rewrite Hout; apply combined_length|].
  split; [intros Hs; rewrite Hout; now apply combined_one_stream|].
  split; [intros Hs; rewrite Hout; now apply combined_one_stream|].
  split; [|exact main_Fatal_causes].
  unfold jq, bind, exec_Cmd_Run, ret. cbn [snd]. fold args.
  now rewrite Hrun.
Qed.

(** ** Loading the document *)

(** A file that is opened and read to its end, and one that fails, at
    the opening or in the middle of the copy. *)
Definition reads (name : string) (bytes : string) : Prop :=
  os_Open name = inr {| data := bytes; read_err := None |}.

Definition read_fails (name : string) (e : error) : Prop :=
  os_Open name = inl e
  \/ exists partial : string,
       os_Open name = inr {| data := partial; read_err := Some e |}.

Lemma append_assoc (a b c : string) : ((a ++ b) ++ c = a ++ (b ++ c))%string.
Proof. induction a as [|x a IH]; simpl; [reflexivity|now rewrite IH]. Qed.

Lemma append_empty_r (a : string) : (a ++ "")%string = a.
Proof. induction a as [|x a IH]; simpl; [reflexivity|now rewrite IH]. Qed.

(** The contents of the files, one after the other. *)
Fixpoint concat_all (ds : list string) : string :=
  match ds with
  | [] => ""
  | d :: rest => (d ++ concat_all rest)%string
  end.

Lemma readFiles_all (names : list string) (ds : list string) :
  Forall2 reads names ds ->
  forall sb : string,
  readFiles sb names = ((sb ++ concat_all ds)%string, None).
Proof.
  induction 1 as [|name d names ds Hd _ IH]; intros sb.
  - cbn. now rewrite append_empty_r.
  - cbn [readFiles concat_all]. unfold readFile, io_Copy.
    unfold reads in Hd. rewrite Hd. cbn [data read_err].
    rewrite IH. now rewrite append_assoc.
Qed.

Lemma readFiles_failure
  (pre : list string) (ds : list string) (name : string) (post : list string)
  (e : error) :
  Forall2 reads pre ds ->
  read_fails name e ->
  forall sb : string,
  exists partial : string,
    readFiles sb (pre ++ name :: post) = (partial, Some e).
Proof.
  induction 1 as [|n d pre ds Hd _ IH]; intros Hf sb.
  - cbn [app readFiles]. unfold readFile, io_Copy.
    destruct Hf as [Ho|[partial Ho]]; rewrite Ho; cbn; eauto.
  - cbn [app readFiles]. unfold readFile at 1, io_Copy.
    unfold reads in Hd. rewrite Hd. cbn [data read_err].
    apply IH, Hf.
Qed.

Lemma readFiles_any_failure (names : list string) :
  forall (sb name : string) (e : error),
  In name names -> read_fails name e ->
  exists (partial : string) (e' : error),
    readFiles sb names = (partial, Some e').
Proof.
  induction names as [|n names IH]; intros sb name e Hin Hf; [contradiction|].
  cbn [readFiles]. unfold readFile, io_Copy.
  destruct (os_Open n) as [e0|[d [e0|]]] eqn:Ho; cbn [data read_err]; eauto.
  destruct Hin as [->|Hin]; [|exact (IH _ name e Hin Hf)].
  destruct Hf as [Hf|[partial Hf]]; rewrite Ho in Hf; discriminate.
Qed.

(** C7: with no file argument the document is what standard input
    gives; with file arguments that are all read to their end it is
    their contents, byte for byte and in the order of the arguments;
    and when one of them fails, after any number that were read, the
    result is the error with the empty string, and [main] ends in
    [log.Fatal] before any model is made or engine run; whichever file
    of the list fails, the result is an error with the empty string. *)
Theorem getContent_document :
  (flag_Args = [] ->
   getContent
   = match read_err os_Stdin with
     | Some e => ("", Some e)
     | None => (data os_Stdin, None)
     end)
  /\ (forall ds : list string,
      flag_Args <> [] ->
      Forall2 reads flag_Args ds ->
      getContent = (concat_all ds, None))
  /\ (forall (pre ds : list string) (name : string) (post : list string)
             (e : error) (w : World),
      flag_Args = (pre ++ name :: post)%list ->
      Forall2 reads pre ds ->
      read_fails name e ->
      getContent = ("", Some e)
      /\ exists msg : string, main w = (Fatal msg, w))
  /\ (forall (name : string) (e : error) (w : World),
      In name flag_Args ->
      read_fails name e ->
      exists e' : error,
        getContent = ("", Some e')
        /\ exists msg : string, main w = (Fatal msg, w)).
Proof.
  split; [|split; [|split]].
  - intros Hargs. unfold getContent. rewrite Hargs. unfold io_Copy.
    cbn [append]. destruct (read_err os_Stdin); reflexivity.
  - intros ds Hne Hall. unfold getContent.
    destruct flag_Args as [|a args] eqn:Hargs; [contradiction|].
    rewrite (readFiles_all _ _ Hall). reflexivity.
  - intros pre ds name post e w Hargs Hpre Hfail.
    assert (Hget : getContent = ("", Some e)).
    { unfold getContent.
      destruct (readFiles_failure pre ds name post e Hpre Hfail "")
        as [partial Hread].
      rewrite <- Hargs in Hread.
      destruct flag_Args as [|a args];
        [destruct pre; discriminate|].
      now rewrite Hread. }
    split; [exact Hget|].
    unfold main. destruct (exec_LookPath "jq").
    + eexists. reflexivity.
    + rewrite Hget. eexists. reflexivity.
  - intros name e w Hin Hfail.
    destruct (readFiles_any_failure flag_Args "" name e Hin Hfail)
      as (partial & e' & Hread).
    assert (Hget : getContent = ("", Some e')).
    { unfold getContent. destruct flag_Args as [|a args]; [contradiction|].
      now rewrite Hread. }
    exists e'. split; [exact Hget|].
    unfold main. destruct (exec_LookPath "jq").
    + eexists. reflexivity.
    + rewrite Hget. eexists. reflexivity.
Qed.

(** ** The exit contract *)

(** C6: when the engine is on the path, the document is read, and the
    event loop ends with the quit message, the program writes to its
    standard output the effective expression of the model the loop
    ended with, and a newline, and nothing else, and ends with status 0.
    That expression is the trimmed text of the input field, or [.] when
    the trimmed text is empty: for the text [  .a  ] it is [.a]. *)
Theorem main_prints_filter
  (doc : string) (pre post : list tea.Msg) (w : World) :
  exec_LookPath "jq" = None ->
  getContent = (doc, None) ->
  incoming = (pre ++ tea.QuitMsg :: post)%list ->
  forallb (fun msg => negb (is_quit msg)) pre = true ->
  let m0 := fst (newModel doc w) in
  let w1 := snd (newModel doc w) in
  let m := fst (steps pre m0 w1) in
  fst (main w) = ExitOK
  /\ stdout (snd (main w))
     = (stdout w ++ jqFilter m ++ String strings.LF "")%string
  /\ execs (snd (main w)) = execs (snd (steps pre m0 w1))
  /\ jqFilter m
     = (let text := strings.TrimSpace (textinput.Value (textinput m)) in
        if is_empty text then "." else text)
  /\ (textinput.Value (textinput m) = "  .a  " ->
      stdout (snd (main w)) = (stdout w ++ ".a" ++ String strings.LF "")%string).
Proof.
  intros Hpath Hdoc Hin Hpre m0 w1 m.
  assert (Hmain : main w
                  = (ExitOK,
                     {| execs := execs (snd (steps pre m0 w1));
                        stdout := (stdout (snd (steps pre m0 w1))
                                   ++ jqFilter m ++ String strings.LF "")%string |})).
  { unfold main. rewrite Hpath, Hdoc, Hin. unfold bind at 1.
    rewrite (surjective_pairing (newModel doc w)). fold m0 w1.
    unfold bind at 1. rewrite (Program_Run_quit pre post Hpre m0 w1).
    reflexivity. }
  assert (Hout : stdout (snd (steps pre m0 w1)) = stdout w).
  { rewrite stdout_steps. subst w1. now rewrite newModel_eq. }
  assert (Hfilter : jqFilter m
     = (let text := strings.TrimSpace (textinput.Value (textinput m)) in
        if is_empty text then "." else text)).
  { unfold jqFilter. apply Or_default. }
  rewrite Hmain. cbn [fst snd execs stdout]. rewrite Hout.
  split; [reflexivity|]. split; [reflexivity|]. split; [reflexivity|].
  split; [exact Hfilter|].
  intros Hval. rewrite Hfilter, Hval. reflexivity.
Qed.

End Properties.

(** * The properties on the concrete platform *)

Section Scenarios.
Import Scenario.

(** The user submits [.a] with the viewport scrolled down by two lines:
    the engine is run once more, on the document and [.a], and the
    viewport shows the new result from its top. *)
Lemma submit_input_focused_witness :
  key_String "enter" = "enter"
  /\ focusViewport (fst scrolled) = false
  /\ viewport.YOffset (viewport (fst scrolled)) = 2
  /\ (let r := Update (fst scrolled) (tea.KeyMsg "enter") (snd scrolled) in
      snd (fst r) = None
      /\ result (fst (fst r)) = ("1" ++ newline)%string
      /\ viewport.lines (viewport (fst (fst r))) = ["1"; ""]
      /\ viewport.YOffset (viewport (fst (fst r))) = 0
      /\ map (fun e => (argv e, stdin e)) (execs (snd r))
         = [(["jq"; "--color-output"; "."], document);
            (["jq"; "--color-output"; ".a"], document)]).
Proof.
  pose proof (submit_input_focused (fst scrolled) "enter" (snd scrolled)
                eq_refl eq_refl) as T.
  cbv zeta in T. destruct T as (HU & Hres & Hlines & _ & _ & Hoff & _).
  split; [reflexivity|]. split; [reflexivity|]. split; [reflexivity|].
  cbv zeta. rewrite HU. cbn [fst snd].
  split; [reflexivity|].
  split; [rewrite Hres; reflexivity|].
  split; [rewrite Hlines; reflexivity|].
  split; [apply Hoff; vm_compute; discriminate|].
  reflexivity.
Defined.

(** With an input field of spaces only the expression is [.]. *)
Lemma blank_filter_is_identity_witness :
  forallb unicode.IsSpace (textinput.value (textinput blank)) = true
  /\ jqFilter blank = "."
  /\ jq document (jqFilter blank) world0 = jq document "." world0.
Proof.
  destruct (blank_filter_is_identity blank document world0) as (_ & _ & T).
  split; [reflexivity|]. exact (T eq_refl).
Defined.

(** A filter that the engine rejects: the diagnostics come back as the
    result, and the exit status is dropped. *)
Lemma jq_returns_combined_output_witness :
  let ws := [(Stderr, "jq: error: syntax error"); (Stderr, newline);
             (Stderr, "jq: 1 compile error"); (Stderr, newline)] in
  exec_Run (execs world0) ["jq"; "--color-output"; ".."] document
  = {| writes := ws; run_err := Some "exit status 3" |}
  /\ fst (jq document ".." world0)
     = ("jq: error: syntax error" ++ newline
        ++ "jq: 1 compile error" ++ newline)%string.
Proof.
  cbv zeta.
  assert (Hrun : exec_Run (execs world0) ["jq"; "--color-output"; ".."] document
                 = {| writes := [(Stderr, "jq: error: syntax error");
                                 (Stderr, newline);
                                 (Stderr, "jq: 1 compile error");
                                 (Stderr, newline)];
                      run_err := Some "exit status 3" |})
    by reflexivity.
  split; [exact Hrun|].
  destruct (jq_returns_combined_output (W := widgets) document ".." world0
              _ _ Hrun)
    as (T & _).
  rewrite T. reflexivity.
Defined.

(** The submit key with the focus on the viewport. *)
Lemma submit_viewport_focused_witness :
  key_String "enter" = "enter"
  /\ focusViewport (fst browsing) = true
  /\ Update (fst browsing) (tea.KeyMsg "enter") (snd browsing)
     = ((fst browsing, None), snd browsing).
Proof.
  split; [reflexivity|]. split; [reflexivity|].
  exact (submit_viewport_focused (fst browsing) "enter" (snd browsing)
           eq_refl eq_refl).
Defined.

(** The first resize and a later one. *)
Lemma resize_layout_witness :
  let m := fst (after []) in
  let m1 := first_layout 80 24 m in
  let m2 := next_layout 100 3 m1 in
  ready m = false
  /\ ready m1 = true
  /\ viewport.Height (viewport m1) = 21
  /\ viewport.lines (viewport m1) = [document; ""]
  /\ map ready (states (map resize [(80, 24); (100, 3)]) m (snd (after [])))
     = [true; true]
  /\ ready m1 = true
  /\ viewport.lines (viewport m2) = [document; ""]
  /\ viewport.YOffset (viewport m2) = viewport.YOffset (viewport m1)
  /\ viewport.Width (viewport m2) = 100
  /\ viewport.Height (viewport m2) = 0.
Proof.
  cbv zeta.
  destruct resize_layout as (T1 & T2 & T3).
  destruct (T1 (fst (after [])) 80 24 (snd (after [])) eq_refl)
    as (_ & Hr1 & _ & Hl1 & _ & _ & Hh1).
  destruct (T2 (first_layout 80 24 (fst (after []))) 100 3 (snd (after []))
              eq_refl)
    as (_ & _ & (Hl2 & Hy2 & _) & Hw2 & Hh2 & _).
  destruct (T3 (fst (after [])) (80, 24) [(100, 3)] (snd (after [])) eq_refl)
    as (Hs & _).
  split; [reflexivity|]. split; [exact Hr1|].
  split; [rewrite Hh1; reflexivity|].
  split; [rewrite Hl1; reflexivity|].
  split; [rewrite Hs; reflexivity|].
  split; [exact Hr1|].
  split; [rewrite Hl2, Hl1; reflexivity|].
  split; [exact Hy2|].
  split; [exact Hw2|].
  rewrite Hh2. reflexivity.
Defined.

(** The session of the scenario: the expression [.a] on the standard
    output. *)
Lemma main_prints_filter_witness :
  let pre := (tea.WindowSizeMsg 80 24
              :: keys_of [" "; " "; "."; "a"; " "; " "; "enter"; "ctrl+c"])%list in
  exec_LookPath "jq" = None
  /\ getContent = (document, None)
  /\ incoming = (pre ++ [tea.QuitMsg])%list
  /\ forallb (fun msg => negb (is_quit msg)) pre = true
  /\ fst (main world0) = ExitOK
  /\ stdout (snd (main world0)) = (".a" ++ newline)%string.
Proof.
  cbv zeta.
  destruct (main_prints_filter (H := terminal) document
              (tea.WindowSizeMsg 80 24
               :: keys_of [" "; " "; "."; "a"; " "; " "; "enter"; "ctrl+c"])
              [] world0 eq_refl eq_refl eq_refl eq_refl)
    as (T1 & _ & _ & _ & T5).
  split; [reflexivity|]. split; [reflexivity|]. split; [reflexivity|].
  split; [reflexivity|]. split; [exact T1|].
  exact (T5 eq_refl).
Defined.

(** The two halves of the document, and a file torn in the middle. *)
Lemma getContent_document_witness :
  @flag_Args _ terminal <> []
  /\ Forall2 (@reads _ terminal) (@flag_Args _ terminal) [half_a; half_b]
  /\ @getContent _ terminal = (document, None)
  /\ @flag_Args _ torn_terminal = (["a.json"] ++ "torn.json" :: ["b.json"])%list
  /\ @read_fails _ torn_terminal "torn.json" "read torn.json: input/output error"
  /\ @getContent _ torn_terminal
     = ("", Some "read torn.json: input/output error")
  /\ exists msg : string,
      @main _ widgets torn_terminal world0 = (Fatal msg, world0).
Proof.
  assert (Hne : @flag_Args _ terminal <> []) by discriminate.
  assert (Hall : Forall2 (@reads _ terminal) (@flag_Args _ terminal)
                         [half_a; half_b])
    by (repeat constructor).
  assert (Hpre : Forall2 (@reads _ torn_terminal) ["a.json"] [half_a])
    by (repeat constructor).
  assert (Hfail : @read_fails _ torn_terminal "torn.json"
                    "read torn.json: input/output error")
    by (right; exists "{"; reflexivity).
  destruct (@getContent_document _ widgets terminal) as (_ & T2 & _).
  destruct (@getContent_document _ widgets torn_terminal) as (_ & _ & T3 & _).
  destruct (T3 ["a.json"] [half_a] "torn.json" ["b.json"] _ world0
              eq_refl Hpre Hfail) as (Hget & Hmain).
  split; [exact Hne|]. split; [exact Hall|].
  split; [exact (T2 _ Hne Hall)|].
  split; [reflexivity|]. split; [exact Hfail|].
  split; [exact Hget|exact Hmain].
Defined.

(** Three focus keys from the initial model. *)
Lemma toggle_focus_alternates_witness :
  let ks := ["tab"; "tab"; "tab"] in
  let m := fst (after (keys_of ks)) in
  Forall (fun k : string => key_String k = "tab") ks
  /\ focusViewport m = true
  /\ textinput.focus (textinput m) = false
  /\ key.Enabled (eval (keys m)) = false
  /\ snd (after (keys_of ks)) = snd (after []).
Proof.
  cbv zeta.
  assert (Hks : Forall (fun k : string => key_String k = "tab")
                       ["tab"; "tab"; "tab"])
    by (repeat constructor).
  destruct (toggle_focus_alternates (P := platform) (H := terminal)
              document ["tab"; "tab"; "tab"] world0 Hks)
    as ((T1 & T2 & T3 & T4) & _).
  split; [exact Hks|]. split; [exact T1|]. split; [exact T2|].
  split; [exact T3|exact T4].
Defined.

(** A message of another type. *)
Lemma Update_other_message_witness :
  (forall width height, tea.OtherMsg tt <> tea.WindowSizeMsg width height)
  /\ (forall k, tea.OtherMsg tt <> tea.KeyMsg k)
  /\ Update (fst scrolled) (tea.OtherMsg tt) (snd scrolled)
     = ((fst scrolled, None), snd scrolled).
Proof.
  assert (H1 : forall width height,
             tea.OtherMsg tt <> tea.WindowSizeMsg width height)
    by (intros; discriminate).
  assert (H2 : forall k, tea.OtherMsg tt <> tea.KeyMsg k)
    by (intros; discriminate).
  split; [exact H1|]. split; [exact H2|].
  exact (Update_other_message (fst scrolled) (tea.OtherMsg tt) (snd scrolled)
           H1 H2).
Defined.

End Scenarios.

(** * More of the controller *)

Section Controller.
Context {P : Platform} {W : Widgets} {H : Host}.

(** ** Keys *)

(** A key that is none of the three that the controller handles. *)
Definition plain_key (k : key_msg) : bool :=
  negb (String.eqb (key_String k) "ctrl+c")
  && negb (String.eqb (key_String k) "tab")
  && negb (String.eqb (key_String k) "enter").

(** The message is a key that [Update] hands to the input field. *)
Definition reaches_input (m : model) (msg : tea.Msg) : bool :=
  match msg with
  | tea.KeyMsg k => negb (focusViewport m) && plain_key k
  | _ => false
  end.

Lemma lift_cmd_not_Quit (c : option widget_cmd) : lift_cmd c <> Some tea.Quit.
Proof. destruct c; discriminate. Qed.

Lemma Update_plain_key (m : model) (k : key_msg) (w : World) :
  plain_key k = true ->
  Update m (tea.KeyMsg k) w
  = (if focusViewport m
     then (set_viewport (fst (viewport_Update (viewport m) k)) m,
           lift_cmd (snd (viewport_Update (viewport m) k)))
     else (set_textinput (fst (textinput_Update (textinput m) k)) m,
           lift_cmd (snd (textinput_Update (textinput m) k))),
     w).
Proof.
  unfold plain_key. intros Hk.
  apply andb_prop in Hk. destruct Hk as [Hk He].
  apply andb_prop in Hk. destruct Hk as [Hc Ht].
  apply negb_true_iff in Hc, Ht, He.
  unfold Update. rewrite Hc, Ht, He.
  destruct (focusViewport m); cbn [negb].
  - destruct (viewport_Update (viewport m) k). reflexivity.
  - destruct (textinput_Update (textinput m) k). reflexivity.
Qed.

Lemma Update_ctrl_c (m : model) (k : key_msg) (w : World) :
  key_String k = "ctrl+c" ->
  Update m (tea.KeyMsg k) w = ((m, Some tea.Quit), w).
Proof. intros Hk. unfold Update. rewrite Hk. reflexivity. Qed.

Lemma Update_enter (m : model) (k : key_msg) (w : World) :
  key_String k = "enter" ->
  Update m (tea.KeyMsg k) w
  = if focusViewport m then ((m, None), w)
    else
      let out := fst (jq (content m) (jqFilter m) w) in
      ((set_viewport (viewport.GotoTop (viewport.SetContent out (viewport m)))
                     (set_result out m), None),
       snd (jq (content m) (jqFilter m) w)).
Proof.
  intros Hk. unfold Update. rewrite Hk. cbn [String.eqb Ascii.eqb Bool.eqb].
  destruct (focusViewport m); reflexivity.
Qed.

(** The four kinds of key, by the name of the key. *)
Lemma key_cases (k : key_msg) :
  key_String k = "ctrl+c" \/ key_String k = "tab" \/ key_String k = "enter"
  \/ plain_key k = true.
Proof.
  unfold plain_key.
  destruct (String.eqb (key_String k) "ctrl+c") eqn:Ec;
    [left; now apply String.eqb_eq|].
  destruct (String.eqb (key_String k) "tab") eqn:Et;
    [right; left; now apply String.eqb_eq|].
  destruct (String.eqb (key_String k) "enter") eqn:Ee;
    [right; right; left; now apply String.eqb_eq|].
  right. right. right. reflexivity.
Qed.

Lemma plain_key_not_ctrl_c (k : key_msg) :
  plain_key k = true -> key_String k <> "ctrl+c".
Proof.
  unfold plain_key. intros Hk Hc. rewrite Hc in Hk. discriminate.
Qed.

(** X1: [Update] asks the program to quit for the key [ctrl+c] and for no
    other message, whichever pane has the focus; it then returns the
    model as it is and runs no engine. *)
Theorem quit_only_on_ctrl_c (m : model) (msg : tea.Msg) (w : World) :
  (snd (fst (Update m msg w)) = Some tea.Quit
   <-> exists k : key_msg, msg = tea.KeyMsg k /\ key_String k = "ctrl+c")
  /\ (snd (fst (Update m msg w)) = Some tea.Quit ->
      Update m msg w = ((m, Some tea.Quit), w)).
Proof.
  destruct msg as [width height|k| |o].
  - rewrite Update_resize. cbn [fst snd].
    split; [split; [discriminate|intros (k & Hk & _); discriminate]|discriminate].
  - destruct (key_cases k) as [Hc|[Ht|[He|Hp]]].
    + rewrite (Update_ctrl_c m k w Hc).
      split; [split; [eauto|reflexivity]|reflexivity].
    + rewrite (Update_tab m k w Ht). cbn [fst snd].
      split; [split; [discriminate|]|discriminate].
      intros (k' & Hk & Hc). injection Hk as <-. congruence.
    + rewrite (Update_enter m k w He).
      assert (Hnone : snd (fst (if focusViewport m then (m, None, w)
         else
          let out := fst (jq (content m) (jqFilter m) w) in
          (set_viewport
             (viewport.GotoTop (viewport.SetContent out (viewport m)))
             (set_result out m), None, snd (jq (content m) (jqFilter m) w))))
         = (None : option tea.Cmd))
        by (destruct (focusViewport m); reflexivity).
      rewrite Hnone.
      split; [split; [discriminate|]|discriminate].
      intros (k' & Hk & Hc). injection Hk as <-. congruence.
    + rewrite (Update_plain_key m k w Hp). cbn [fst snd].
      assert (Hnq : snd (if focusViewport m
          then (set_viewport (fst (viewport_Update (viewport m) k)) m,
                lift_cmd (snd (viewport_Update (viewport m) k)))
          else (set_textinput (fst (textinput_Update (textinput m) k)) m,
                lift_cmd (snd (textinput_Update (textinput m) k))))
          <> Some tea.Quit)
        by (destruct (focusViewport m); apply lift_cmd_not_Quit).
      split; [split; [intros Hq; contradiction|]|intros Hq; contradiction].
      intros (k' & Hk & Hc). injection Hk as <-.
      exfalso. exact (plain_key_not_ctrl_c k Hp Hc).
  - cbn. split; [split; [discriminate|intros (k & Hk & _); discriminate]|discriminate].
  - cbn. split; [split; [discriminate|intros (k & Hk & _); discriminate]|discriminate].
Qed.

(** X2: a key that the controller does not handle goes to the widget that
    has the focus and to it alone: the other widget, the result, the
    document, the bindings, the flags and the world stay as they are, and
    the command is the one the widget returned. *)
Theorem key_goes_to_focused_widget (m : model) (k : key_msg) (w : World) :
  plain_key k = true ->
  let m' := fst (fst (Update m (tea.KeyMsg k) w)) in
  let cmd := snd (fst (Update m (tea.KeyMsg k) w)) in
  snd (Update m (tea.KeyMsg k) w) = w
  /\ (focusViewport m = false ->
      textinput m' = fst (textinput_Update (textinput m) k)
      /\ cmd = lift_cmd (snd (textinput_Update (textinput m) k))
      /\ viewport m' = viewport m)
  /\ (focusViewport m = true ->
      viewport m' = fst (viewport_Update (viewport m) k)
      /\ cmd = lift_cmd (snd (viewport_Update (viewport m) k))
      /\ textinput m' = textinput m)
  /\ result m' = result m /\ content m' = content m /\ keys m' = keys m
  /\ help m' = help m /\ ready m' = ready m
  /\ focusViewport m' = focusViewport m.
Proof.
  intros Hp m' cmd. subst m' cmd. rewrite (Update_plain_key m k w Hp).
  cbn [fst snd].
  destruct (focusViewport m) eqn:Hf; cbn [fst snd];
    repeat split; try discriminate; auto.
Qed.

(** X3: the text of the input field, and with it the effective expression,
    is changed by no message except a key handed to the input field: a
    resize, a focus change, a submit, a quit, a key of the viewport and
    a message of another type all keep it. *)
Theorem expression_kept (m : model) (msg : tea.Msg) (w : World) :
  reaches_input m msg = false ->
  let m' := fst (fst (Update m msg w)) in
  textinput.value (textinput m') = textinput.value (textinput m)
  /\ jqFilter m' = jqFilter m.
Proof.
  intros Hr m'.
  assert (Hv : textinput.value (textinput m') = textinput.value (textinput m)).
  { subst m'. destruct msg as [width height|k| |o]; try reflexivity.
    - rewrite Update_resize. cbn [fst]. destruct (ready m); reflexivity.
    - destruct (key_cases k) as [Hc|[Ht|[He|Hp]]].
      + now rewrite (Update_ctrl_c m k w Hc).
      + rewrite (Update_tab m k w Ht). cbn [fst]. unfold toggled.
        destruct (focusViewport m); cbn; [apply value_Focus|reflexivity].
      + rewrite (Update_enter m k w He).
        destruct (focusViewport m); reflexivity.
      + rewrite (Update_plain_key m k w Hp). cbn [fst].
        cbn [reaches_input] in Hr. rewrite Hp, andb_true_r in Hr.
        apply negb_false_iff in Hr. rewrite Hr. reflexivity. }
  split; [exact Hv|].
  unfold jqFilter, textinput.Value. now rewrite Hv.
Qed.

(** ** The bindings *)

(** The bindings of the model are those of [defaultKeyMap], with the
    submit binding disabled exactly when the viewport has the focus. *)
Definition bindings_ok (m : model) : Prop :=
  keys m
  = set_eval (key.SetEnabled (negb (focusViewport m)) (eval defaultKeyMap))
             defaultKeyMap.

Lemma bindings_ok_Update (m : model) (msg : tea.Msg) (w : World) :
  bindings_ok m -> bindings_ok (fst (fst (Update m msg w))).
Proof.
  unfold bindings_ok. intros Hm.
  destruct msg as [width height|k| |o]; try exact Hm.
  - rewrite Update_resize. cbn [fst]. destruct (ready m); exact Hm.
  - destruct (key_cases k) as [Hc|[Ht|[He|Hp]]].
    + now rewrite (Update_ctrl_c m k w Hc).
    + rewrite (Update_tab m k w Ht). cbn [fst]. unfold toggled.
      destruct (focusViewport m) eqn:Hf; cbn; rewrite Hm; reflexivity.
    + rewrite (Update_enter m k w He).
      destruct (focusViewport m) eqn:Hf; cbn; rewrite Hf; exact Hm.
    + rewrite (Update_plain_key m k w Hp). cbn [fst].
      destruct (focusViewport m) eqn:Hf; cbn; rewrite Hf; exact Hm.
Qed.

Lemma reachable_bindings (doc : string) (w0 : World) (m : model) (w : World) :
  reachable doc w0 m w -> bindings_ok m.
Proof.
  induction 1 as [|m w msg _ IH].
  - rewrite newModel_eq. reflexivity.
  - apply bindings_ok_Update, IH.
Qed.

(** X4: in every state of a session the quit and focus bindings are the
    ones [defaultKeyMap] made, the submit binding differs from its
    default only in being disabled while the viewport has the focus, and
    the two help views list the same three bindings: quit, submit,
    focus. *)
Theorem bindings_follow_focus (doc : string) (w0 : World) (msgs : list tea.Msg) :
  let m := fst (steps msgs (fst (newModel doc w0)) (snd (newModel doc w0))) in
  let submit := key.SetEnabled (negb (focusViewport m)) (eval defaultKeyMap) in
  quit (keys m) = quit defaultKeyMap
  /\ focusNextPane (keys m) = focusNextPane defaultKeyMap
  /\ eval (keys m) = submit
  /\ key.Enabled (eval (keys m)) = negb (focusViewport m)
  /\ help.ShortHelp (keys m)
     = [quit defaultKeyMap; submit; focusNextPane defaultKeyMap]
  /\ help.FullHelp (keys m) = [help.ShortHelp (keys m)].
Proof.
  intros m submit.
  assert (Hok : bindings_ok m).
  { apply (reachable_bindings doc w0 m
             (snd (steps msgs (fst (newModel doc w0)) (snd (newModel doc w0))))).
    apply steps_reachable. constructor. }
  unfold bindings_ok in Hok. fold submit in Hok.
  cbn [help.ShortHelp help.FullHelp keyMap_KeyMap].
  rewrite Hok. cbn [quit focusNextPane eval set_eval].
  repeat split.
  subst submit. unfold key.Enabled. cbn.
  now rewrite negb_involutive, andb_true_r.
Qed.

(** ** The viewport and the result *)

Lemma shows_result_Update (m : model) (msg : tea.Msg) (w : World) :
  (forall (v : viewport.Model) (k : key_msg),
      viewport.lines (fst (viewport_Update v k)) = viewport.lines v) ->
  (ready m = true ->
   viewport.lines (viewport m) = strings.SplitLF (strings.ReplaceCRLF (result m))) ->
  let m' := fst (fst (Update m msg w)) in
  ready m' = true ->
  viewport.lines (viewport m') = strings.SplitLF (strings.ReplaceCRLF (result m')).
Proof.
  intros Hvp Hm m'. subst m'.
  destruct msg as [width height|k| |o]; try exact Hm.
  - rewrite Update_resize. cbn [fst].
    destruct (ready m) eqn:Hr; intros _.
    + exact (Hm eq_refl).
    + cbn. apply lines_SetContent.
  - destruct (key_cases k) as [Hc|[Ht|[He|Hp]]].
    + now rewrite (Update_ctrl_c m k w Hc).
    + rewrite (Update_tab m k w Ht). cbn [fst]. unfold toggled.
      destruct (focusViewport m); exact Hm.
    + rewrite (Update_enter m k w He).
      destruct (focusViewport m); [exact Hm|].
      intros _. cbn. rewrite lines_GotoTop. apply lines_SetContent.
    + rewrite (Update_plain_key m k w Hp). cbn [fst].
      destruct (focusViewport m); [|exact Hm].
      cbn. rewrite Hvp. exact Hm.
Qed.

Lemma reachable_shows_result
  (doc : string) (w0 : World) (m : model) (w : World) :
  (forall (v : viewport.Model) (k : key_msg),
      viewport.lines (fst (viewport_Update v k)) = viewport.lines v) ->
  reachable doc w0 m w ->
  ready m = true ->
  viewport.lines (viewport m) = strings.SplitLF (strings.ReplaceCRLF (result m)).
Proof.
  intros Hvp. induction 1 as [|m w msg _ IH].
  - rewrite newModel_eq. discriminate.
  - apply shows_result_Update; assumption.
Qed.

(** X5: when the viewport widget keeps its lines under its own keys (it
    scrolls, it does not edit), the viewport of a session is never
    stale: from the first resize on, in every state, its lines are the
    lines of the current result, whether the result was submitted before
    or after the layout was made. *)
Theorem viewport_shows_result (doc : string) (w0 : World) (msgs : list tea.Msg) :
  (forall (v : viewport.Model) (k : key_msg),
      viewport.lines (fst (viewport_Update v k)) = viewport.lines v) ->
  let m := fst (steps msgs (fst (newModel doc w0)) (snd (newModel doc w0))) in
  ready m = true ->
  viewport.lines (viewport m) = strings.SplitLF (strings.ReplaceCRLF (result m))
  /\ viewport.content (viewport m) = strings.ReplaceCRLF (result m).
Proof.
  intros Hvp m Hr.
  assert (Hl : viewport.lines (viewport m)
               = strings.SplitLF (strings.ReplaceCRLF (result m))).
  { apply (reachable_shows_result doc w0 m
             (snd (steps msgs (fst (newModel doc w0)) (snd (newModel doc w0))))
             Hvp); [|exact Hr].
    apply steps_reachable. constructor. }
  split; [exact Hl|].
  unfold viewport.content. rewrite Hl. apply JoinLF_SplitLF.
Qed.

Lemma YOffset_SetContent_top (s : string) (v : viewport.Model) :
  viewport.YOffset v = 0 ->
  goint.in_range (goint.len (strings.SplitLF (strings.ReplaceCRLF s))) ->
  viewport.YOffset (viewport.SetContent s v) = 0.
Proof.
  intros Hy Hlen. unfold viewport.SetContent.
  cbn [viewport.lines viewport.set_lines viewport.YOffset]. rewrite Hy.
  assert (Hpos : 1 <= goint.len (strings.SplitLF (strings.ReplaceCRLF s))).
  { pose proof (SplitLF_not_nil (strings.ReplaceCRLF s)) as Hne.
    unfold goint.len.
    destruct (strings.SplitLF (strings.ReplaceCRLF s));
      [contradiction|]. cbn [List.length]. lia. }
  assert (Hsub : goint.sub
                   (goint.len (strings.SplitLF (strings.ReplaceCRLF s))) 1
                 = goint.len (strings.SplitLF (strings.ReplaceCRLF s)) - 1).
  { unfold goint.sub. apply wrap_in_range.
    unfold goint.in_range in *. lia. }
  rewrite Hsub.
  destruct (Z.ltb_spec
              (goint.len (strings.SplitLF (strings.ReplaceCRLF s)) - 1) 0);
    [lia|exact Hy].
Qed.

(** X6: the first resize leaves the new viewport at its top: the offset is
    0, for every result whose number of lines is an [int]. *)
Theorem first_resize_at_top (m : model) (width height : Z) (w : World) :
  ready m = false ->
  goint.in_range
    (goint.len (strings.SplitLF (strings.ReplaceCRLF (result m)))) ->
  let m' := fst (fst (Update m (tea.WindowSizeMsg width height) w)) in
  viewport.YOffset (viewport m') = 0
  /\ viewport.AtTop (viewport m') = true.
Proof.
  intros Hr Hlen m'. subst m'. rewrite Update_resize, Hr. cbn [fst].
  assert (Hy : viewport.YOffset (viewport (first_layout width height m)) = 0).
  { unfold first_layout.
    cbn [viewport set_help set_textinput set_ready set_viewport].
    apply YOffset_SetContent_top; [reflexivity|exact Hlen]. }
  split; [exact Hy|]. unfold viewport.AtTop. now rewrite Hy.
Qed.

(** ** The engine runs of a session *)

(** A run of the engine on the document: the document on the standard
    input, and as arguments the colour option and a filter that is not
    empty. *)
Definition run_on (doc : string) (e : Execution) : Prop :=
  stdin e = doc
  /\ exists filter : string,
      argv e = ["jq"; "--color-output"; filter] /\ is_empty filter = false.

Definition log_inv (doc : string) (w0 w : World) : Prop :=
  exists (e0 : Execution) (rest : list Execution),
    execs w = (execs w0 ++ e0 :: rest)%list
    /\ argv e0 = ["jq"; "--color-output"; "."]
    /\ Forall (run_on doc) (e0 :: rest).

Lemma reachable_log (doc : string) (w0 : World) (m : model) (w : World) :
  reachable doc w0 m w -> log_inv doc w0 w.
Proof.
  induction 1 as [|m w msg Hreach IH].
  - rewrite newModel_eq. cbn [snd execs].
    eexists. exists []. split; [reflexivity|]. split; [reflexivity|].
    constructor; [|constructor]. split; [reflexivity|].
    exists ".". split; reflexivity.
  - destruct IH as (e0 & rest & Hex & Ha & Hall).
    destruct (reachable_inv doc w0 m w Hreach) as [Hdoc _].
    destruct (Update_step m msg w)
      as (_ & _ & [[Hw _]|[_ (e & Hexe & _ & Hargv & Hin & _)]]).
    + rewrite Hw. exists e0, rest. auto.
    + exists e0, (rest ++ [e])%list.
      split; [rewrite Hexe, Hex, <- app_assoc; reflexivity|].
      split; [exact Ha|].
      change (e0 :: rest ++ [e])%list with ((e0 :: rest) ++ [e])%list.
      apply Forall_app. split; [exact Hall|].
      constructor; [|constructor].
      split; [congruence|].
      exists (jqFilter m). split; [exact Hargv|apply jqFilter_not_empty].
Qed.

(** X7: the engine runs of a session are added to those made before it and
    never taken away; the first of them is the identity run of
    [newModel], and every one of them reads the document the session
    was started on and is given a filter that is not empty.  The session
    writes nothing to the standard output. *)
Theorem every_run_on_document (doc : string) (w0 : World) (msgs : list tea.Msg) :
  let w := snd (steps msgs (fst (newModel doc w0)) (snd (newModel doc w0))) in
  (exists (e0 : Execution) (rest : list Execution),
      execs w = (execs w0 ++ e0 :: rest)%list
      /\ argv e0 = ["jq"; "--color-output"; "."]
      /\ Forall (run_on doc) (e0 :: rest))
  /\ stdout w = stdout w0.
Proof.
  intros w. split.
  - apply (reachable_log doc w0
             (fst (steps msgs (fst (newModel doc w0)) (snd (newModel doc w0))))).
    apply steps_reachable. constructor.
  - subst w. rewrite stdout_steps. now rewrite newModel_eq.
Qed.

End Controller.

(** * More of the arithmetic and of the trimming *)

Lemma wrap_range (z : Z) : goint.in_range (goint.wrap z).
Proof.
  unfold goint.in_range, goint.wrap.
  pose proof (Z.mod_pos_bound (z + 2 ^ 63) (2 ^ 64) ltac:(lia)). lia.
Qed.

Lemma wrap_add_l (a b : Z) : goint.wrap (goint.wrap a + b) = goint.wrap (a + b).
Proof.
  unfold goint.wrap. f_equal.
  replace ((a + 2 ^ 63) mod 2 ^ 64 - 2 ^ 63 + b + 2 ^ 63)
    with ((a + 2 ^ 63) mod 2 ^ 64 + b) by lia.
  rewrite Z.add_mod_idemp_l by lia. f_equal. lia.
Qed.

Lemma wrap_quot (z : Z) : exists q : Z, goint.wrap z = z + 2 ^ 64 * q.
Proof.
  exists (- ((z + 2 ^ 63) / 2 ^ 64)). unfold goint.wrap.
  pose proof (Z.div_mod (z + 2 ^ 63) (2 ^ 64) ltac:(lia)). lia.
Qed.

Lemma wrap_congr (a b q : Z) :
  a = b + 2 ^ 64 * q -> goint.wrap a = goint.wrap b.
Proof.
  intros ->. unfold goint.wrap. f_equal.
  replace (b + 2 ^ 64 * q + 2 ^ 63) with (b + 2 ^ 63 + q * 2 ^ 64) by lia.
  apply Z_mod_plus_full.
Qed.

Lemma CountLF_range (s : string) : goint.in_range (strings.CountLF s).
Proof.
  induction s as [|c t IH]; cbn [strings.CountLF].
  - unfold goint.in_range. lia.
  - destruct (Ascii.eqb c strings.LF); [apply wrap_range|exact IH].
Qed.

(** [strings.Count] of a concatenation, in [int] arithmetic. *)
Lemma CountLF_app (a b : string) :
  strings.CountLF (a ++ b) = goint.add (strings.CountLF a) (strings.CountLF b).
Proof.
  induction a as [|c a IH]; cbn [append strings.CountLF].
  - unfold goint.add. cbn [Z.add].
    symmetry. apply wrap_in_range, CountLF_range.
  - destruct (Ascii.eqb c strings.LF); [|exact IH].
    rewrite IH. unfold goint.add.
    rewrite !wrap_add_l. f_equal. lia.
Qed.

(** Bytes and their reversal. *)
Lemma list_ascii_of_string_app (a b : string) :
  list_ascii_of_string (a ++ b)
  = (list_ascii_of_string a ++ list_ascii_of_string b)%list.
Proof. induction a as [|c a IH]; cbn; [reflexivity|now rewrite IH]. Qed.

(** An ASCII byte that is not a space: the byte at which each of the two
    loops of [TrimSpace] stops. *)
Definition solid (c : ascii) : bool :=
  (byte_val c <? utf8.RuneSelf) && negb (strings.asciiSpace c).

(** The string starts and ends with such a byte. *)
Definition solid_ends (s : string) : bool :=
  match s, rev (list_ascii_of_string s) with
  | String c _, c' :: _ => solid c && solid c'
  | _, _ => false
  end.

Definition all_spaces (s : string) : bool :=
  forallb strings.asciiSpace (list_ascii_of_string s).

Lemma asciiSpace_is_ascii (c : ascii) :
  strings.asciiSpace c = true -> (utf8.RuneSelf <=? byte_val c) = false.
Proof.
  unfold strings.asciiSpace, utf8.RuneSelf. cbv zeta.
  rewrite orb_true_iff, andb_true_iff, !Z.leb_le, Z.eqb_eq.
  intros Hc. apply Z.leb_gt. lia.
Qed.

Lemma solid_facts (c : ascii) :
  solid c = true ->
  (utf8.RuneSelf <=? byte_val c) = false /\ strings.asciiSpace c = false.
Proof.
  unfold solid. rewrite andb_true_iff, negb_true_iff, Z.ltb_lt.
  intros [Hlt Hs]. split; [apply Z.leb_gt; exact Hlt|exact Hs].
Qed.

Lemma forallb_rev_eq {A : Type} (f : A -> bool) (l : list A) :
  forallb f (rev l) = forallb f l.
Proof.
  induction l as [|a l IH]; [reflexivity|].
  cbn [rev forallb]. rewrite forallb_app, IH. cbn [forallb].
  rewrite andb_true_r. apply andb_comm.
Qed.

Lemma TrimSpace_leading (lead s : string) :
  all_spaces lead = true ->
  strings.TrimSpace (lead ++ s) = strings.TrimSpace s.
Proof.
  unfold all_spaces. induction lead as [|c lead IH]; intros Hl; [reflexivity|].
  cbn [list_ascii_of_string forallb] in Hl.
  apply andb_prop in Hl. destruct Hl as [Hc Hl].
  cbn [append strings.TrimSpace].
  rewrite (asciiSpace_is_ascii c Hc), Hc. apply IH, Hl.
Qed.

Lemma trimSpaceTail_trailing (rev_trail rev_s : list ascii) :
  forallb strings.asciiSpace rev_trail = true ->
  strings.trimSpaceTail (rev_trail ++ rev_s) = strings.trimSpaceTail rev_s.
Proof.
  induction rev_trail as [|c r IH]; intros Hl; [reflexivity|].
  cbn [forallb] in Hl. apply andb_prop in Hl. destruct Hl as [Hc Hl].
  cbn [app strings.trimSpaceTail].
  rewrite (asciiSpace_is_ascii c Hc), Hc. apply IH, Hl.
Qed.

(** [TrimSpace] takes the ASCII spaces off both ends of a text whose
    core starts and ends with ASCII bytes that are not spaces, and
    leaves the core, with whatever is inside it, as it is. *)
Lemma TrimSpace_core (lead core trail : string) :
  all_spaces lead = true ->
  solid_ends core = true ->
  all_spaces trail = true ->
  strings.TrimSpace (lead ++ core ++ trail) = core.
Proof.
  intros Hl Hc Ht. rewrite (TrimSpace_leading lead _ Hl).
  unfold solid_ends in Hc.
  destruct core as [|c t]; [discriminate|].
  destruct (rev (list_ascii_of_string (String c t))) as [|c' r] eqn:Er;
    [discriminate|].
  apply andb_prop in Hc. destruct Hc as [Hc Hc'].
  destruct (solid_facts c Hc) as [Ha Hs].
  destruct (solid_facts c' Hc') as [Ha' Hs'].
  cbn [append strings.TrimSpace]. rewrite Ha, Hs.
  change (String c (t ++ trail)) with (String c t ++ trail)%string.
  rewrite list_ascii_of_string_app, rev_app_distr.
  rewrite trimSpaceTail_trailing
    by (unfold all_spaces in Ht; now rewrite forallb_rev_eq).
  rewrite Er. cbn [strings.trimSpaceTail]. rewrite Ha', Hs'.
  rewrite <- Er, rev_involutive. apply string_of_list_ascii_of_string.
Qed.

Section Program.
Context {P : Platform} {W : Widgets} {H : Host}.

(** ** The view *)

(** X8: the view is as high as its three panes together: the margin that
    [Update] takes off the terminal height for the input field and the
    help, and the height of the viewport's own view, in [int]
    arithmetic. *)
Theorem View_height (m : model) :
  lipgloss.Height (View m)
  = goint.add (margin m) (lipgloss.Height (viewport_View (viewport m))).
Proof.
  unfold View, margin, lipgloss.Height.
  rewrite CountLF_app. cbn [append strings.CountLF].
  rewrite Ascii.eqb_refl, CountLF_app. cbn [append strings.CountLF].
  rewrite Ascii.eqb_refl. unfold goint.add.
  set (ti := strings.CountLF (textinput_View (textinput m))).
  set (vp := strings.CountLF (viewport_View (viewport m))).
  set (hp := strings.CountLF
               (marginTop1_Render (help_Model_View (help m) (keys m)))).
  destruct (wrap_quot (hp + 1)) as [q1 E1]. rewrite E1.
  destruct (wrap_quot (vp + (hp + 1 + 2 ^ 64 * q1))) as [q2 E2]. rewrite E2.
  destruct (wrap_quot (vp + (hp + 1 + 2 ^ 64 * q1) + 2 ^ 64 * q2 + 1))
    as [q3 E3]. rewrite E3.
  destruct (wrap_quot
              (ti + (vp + (hp + 1 + 2 ^ 64 * q1) + 2 ^ 64 * q2 + 1
                     + 2 ^ 64 * q3))) as [q4 E4]. rewrite E4.
  destruct (wrap_quot (ti + 1)) as [q5 E5]. rewrite E5.
  destruct (wrap_quot (ti + 1 + 2 ^ 64 * q5 + (hp + 1 + 2 ^ 64 * q1)))
    as [q6 E6]. rewrite E6.
  destruct (wrap_quot (vp + 1)) as [q7 E7]. rewrite E7.
  apply (wrap_congr _ _ (q2 + q3 + q4 - q5 - q6 - q7)). lia.
Qed.

(** ** The effective expression *)

(** X9: for a text of the input field that is ASCII spaces, a core and
    ASCII spaces again, the effective expression is the core: the
    spaces inside the core are kept. *)
Theorem jqFilter_strips_spaces (m : model) (lead core trail : string) :
  all_spaces lead = true ->
  solid_ends core = true ->
  all_spaces trail = true ->
  textinput.Value (textinput m) = (lead ++ core ++ trail)%string ->
  jqFilter m = core.
Proof.
  intros Hl Hc Ht Hv.
  unfold jqFilter. rewrite Hv, (TrimSpace_core lead core trail Hl Hc Ht).
  rewrite Or_default. destruct core; [discriminate|reflexivity].
Qed.

(** ** Evaluation on demand *)

(** The message is the submit key. *)
Definition is_submit (msg : tea.Msg) : bool :=
  match msg with
  | tea.KeyMsg k => String.eqb (key_String k) "enter"
  | _ => false
  end.

Lemma Update_no_submit (m : model) (msg : tea.Msg) (w : World) :
  is_submit msg = false ->
  snd (Update m msg w) = w
  /\ result (fst (fst (Update m msg w))) = result m.
Proof.
  intros Hs. destruct msg as [width height|k| |o]; try (split; reflexivity).
  - rewrite Update_resize. cbn [fst snd].
    split; [reflexivity|destruct (ready m); reflexivity].
  - cbn [is_submit] in Hs. destruct (key_cases k) as [Hc|[Ht|[He|Hp]]].
    + rewrite (Update_ctrl_c m k w Hc). split; reflexivity.
    + rewrite (Update_tab m k w Ht). cbn [fst snd]. unfold toggled.
      split; [reflexivity|destruct (focusViewport m); reflexivity].
    + rewrite He in Hs. discriminate.
    + rewrite (Update_plain_key m k w Hp). cbn [fst snd].
      split; [reflexivity|destruct (focusViewport m); reflexivity].
Qed.

(** X12: the engine runs on demand only.  Through any sequence of
    messages without the submit key (typing, scrolling, focus changes,
    resizes, the quit key) no engine is run, nothing is written, and the
    result on display stays the one of the last submit, whatever text
    the input field has come to hold. *)
Theorem engine_runs_only_on_submit
  (msgs : list tea.Msg) (m : model) (w : World) :
  forallb (fun msg => negb (is_submit msg)) msgs = true ->
  snd (steps msgs m w) = w
  /\ result (fst (steps msgs m w)) = result m
  /\ content (fst (steps msgs m w)) = content m.
Proof.
  revert m w. induction msgs as [|msg rest IH]; intros m w Hall;
    [repeat split|].
  cbn [forallb] in Hall. apply andb_prop in Hall. destruct Hall as [Hs Hall].
  apply negb_true_iff in Hs.
  rewrite steps_cons.
  destruct (Update_no_submit m msg w Hs) as [Hw Hr].
  destruct (Update_step m msg w) as (Hc & _).
  destruct (IH (fst (fst (Update m msg w))) (snd (Update m msg w)) Hall)
    as (IHw & IHr & IHc).
  split; [congruence|]. split; congruence.
Qed.

(** ** The program *)

(** The event loop writes nothing to the standard output. *)
Lemma stdout_Program_Run (msgs : list tea.Msg) :
  forall (m : model) (w : World),
  stdout (snd (Program_Run msgs m w)) = stdout w.
Proof.
  induction msgs as [|msg rest IH]; intros m w; [reflexivity|].
  destruct msg as [width height|k| |o]; try reflexivity;
    cbn [Program_Run]; unfold bind;
    pose proof (stdout_Update m) as Hu;
    [specialize (Hu (tea.WindowSizeMsg width height) w)
    |specialize (Hu (tea.KeyMsg k) w)
    |specialize (Hu (tea.OtherMsg o) w)];
    destruct (Update m _ w) as [[m' c] w']; rewrite IH; exact Hu.
Qed.

(** The event loop returns without an error exactly when a quit message
    arrives, and its only error is the failure of the loop. *)
Lemma Program_Run_outcome (msgs : list tea.Msg) :
  forall (m : model) (w : World),
  snd (fst (Program_Run msgs m w))
  = if existsb is_quit msgs then None else Some loop_failure.
Proof.
  induction msgs as [|msg rest IH]; intros m w; [reflexivity|].
  destruct msg as [width height|k| |o]; try reflexivity;
    cbn [Program_Run existsb is_quit orb]; unfold bind;
    destruct (Update m _ w) as [[m' c] w']; apply IH.
Qed.


(** X11: when [main] ends in [log.Fatal] it has written nothing to the
    standard output.  The check for the engine comes first: without the
    engine the message is the fixed one and the world is untouched,
    whatever the files are; with the engine and a document that cannot
    be read the message is the error of the read and the world is
    untouched; otherwise the event loop has failed without a quit
    message. *)
Theorem main_Fatal_silent (w : World) (msg : string) :
  fst (main w) = Fatal msg ->
  stdout (snd (main w)) = stdout w
  /\ (exec_LookPath "jq" <> None ->
      msg = "'jq: command not found" /\ snd (main w) = w)
  /\ (exec_LookPath "jq" = None ->
      forall e : error, snd getContent = Some e ->
      msg = e /\ snd (main w) = w)
  /\ (exec_LookPath "jq" = None -> snd getContent = None ->
      msg = loop_failure /\ existsb is_quit incoming = false).
Proof.
  unfold main.
  destruct (exec_LookPath "jq") as [e|].
  { cbn [fst snd ret]. intros Hm. injection Hm as <-.
    split; [reflexivity|]. split; [intros _; split; reflexivity|].
    split; discriminate. }
  destruct getContent as [doc [e|]].
  { cbn [fst snd ret]. intros Hm. injection Hm as <-.
    split; [reflexivity|]. split; [intros Hl; now contradiction Hl|].
    split; [|discriminate].
    intros _ e' He. injection He as <-. split; reflexivity. }
  unfold bind. pose proof (newModel_eq doc w) as Hnew. cbv zeta in Hnew.
  destruct (newModel doc w) as [m0 w1].
  assert (Hw1 : stdout w1 = stdout w) by (injection Hnew as _ ->; reflexivity).
  pose proof (Program_Run_outcome incoming m0 w1) as Hout.
  pose proof (stdout_Program_Run incoming m0 w1) as Hstd.
  destruct (Program_Run incoming m0 w1) as [[m err] w'].
  cbn [fst snd] in Hout, Hstd. subst err.
  destruct (existsb is_quit incoming).
  - destruct (fmt_Println (jqFilter m) w'). discriminate.
  - cbn [fst snd ret]. intros Hm. injection Hm as <-.
    split; [congruence|]. split; [intros Hl; now contradiction Hl|].
    split; [discriminate|]. intros _ _. split; reflexivity.
Qed.

End Program.

(** * The scenario, continued *)

Section Sessions.
Import Scenario.

(** The viewport of the scenario scrolls and keeps its lines. *)
Lemma scroll_key_lines (v : viewport.Model) (k : string) :
  viewport.lines (fst (scroll_key v k)) = viewport.lines v.
Proof.
  unfold scroll_key.
  destruct (String.eqb k "down"); [reflexivity|].
  destruct (String.eqb k "up"); reflexivity.
Qed.

(** A scroll key while the viewport has the focus. *)
Lemma key_goes_to_focused_widget_witness :
  let m := fst browsing in
  let w := snd browsing in
  let m' := fst (fst (Update m (tea.KeyMsg "down") w)) in
  plain_key "down" = true
  /\ focusViewport m = true
  /\ snd (Update m (tea.KeyMsg "down") w) = w
  /\ viewport m' = fst (scroll_key (viewport m) "down")
  /\ textinput m' = textinput m
  /\ result m' = result m.
Proof.
  cbv zeta.
  assert (Hp : plain_key (P := platform) "down" = true) by reflexivity.
  assert (Hf : focusViewport (fst browsing) = true) by reflexivity.
  destruct (key_goes_to_focused_widget (P := platform) (W := widgets)
              (H := terminal)
              (fst browsing) "down" (snd browsing) Hp)
    as (T1 & _ & T3 & T4 & _).
  destruct (T3 Hf) as (Hv & _ & Ht).
  split; [exact Hp|]. split; [exact Hf|]. split; [exact T1|].
  split; [exact Hv|]. split; [exact Ht|exact T4].
Defined.

(** A submit keeps the expression that was typed. *)
Lemma expression_kept_witness :
  let m := fst scrolled in
  let w := snd scrolled in
  let m' := fst (fst (Update m (tea.KeyMsg "enter") w)) in
  reaches_input m (tea.KeyMsg "enter") = false
  /\ jqFilter m = ".a"
  /\ textinput.value (textinput m') = textinput.value (textinput m)
  /\ jqFilter m' = jqFilter m.
Proof.
  cbv zeta.
  assert (Hr : reaches_input (P := platform) (fst scrolled)
                 (tea.KeyMsg "enter") = false) by reflexivity.
  destruct (expression_kept (P := platform) (W := widgets) (H := terminal)
              (fst scrolled) (tea.KeyMsg ("enter" : @key_msg platform))
              (snd scrolled) Hr)
    as (T1 & T2).
  split; [exact Hr|]. split; [reflexivity|]. split; [exact T1|exact T2].
Defined.

(** A submit after the layout, then a scroll in the viewport. *)
Lemma viewport_shows_result_witness :
  let m := fst (after (tea.WindowSizeMsg 80 24
                       :: keys_of ["."; "a"; "enter"; "tab"; "down"])) in
  (forall (v : viewport.Model) (k : string),
      viewport.lines (fst (viewport_Update v k)) = viewport.lines v)
  /\ ready m = true
  /\ result m = ("1" ++ newline)%string
  /\ viewport.lines (viewport m)
     = strings.SplitLF (strings.ReplaceCRLF (result m))
  /\ viewport.content (viewport m) = strings.ReplaceCRLF (result m).
Proof.
  cbv zeta. unfold after.
  assert (Hr : ready (fst (steps (tea.WindowSizeMsg 80 24
                 :: keys_of ["."; "a"; "enter"; "tab"; "down"])
                 (fst (newModel document world0))
                 (snd (newModel document world0)))) = true)
    by (vm_compute; reflexivity).
  pose proof (viewport_shows_result (P := platform) (W := widgets)
                (H := terminal) document world0
                (tea.WindowSizeMsg 80 24
                 :: keys_of ["."; "a"; "enter"; "tab"; "down"])
                scroll_key_lines Hr) as T.
  split; [exact scroll_key_lines|]. split; [exact Hr|].
  split; [vm_compute; reflexivity|exact T].
Defined.

(** The first resize of the scenario. *)
Lemma first_resize_at_top_witness :
  let m := fst (after []) in
  let m' := fst (fst (Update m (tea.WindowSizeMsg 80 24) (snd (after [])))) in
  ready m = false
  /\ goint.in_range
       (goint.len (strings.SplitLF (strings.ReplaceCRLF (result m))))
  /\ viewport.YOffset (viewport m') = 0
  /\ viewport.AtTop (viewport m') = true.
Proof.
  cbv zeta.
  assert (Hr : ready (fst (after [])) = false) by reflexivity.
  assert (Hlen : goint.in_range
                   (goint.len (strings.SplitLF
                      (strings.ReplaceCRLF (result (fst (after [])))))))
    by (split; [discriminate|reflexivity]).
  destruct (first_resize_at_top (P := platform) (W := widgets) (H := terminal)
              (fst (after [])) 80 24 (snd (after [])) Hr Hlen)
    as (T1 & T2).
  split; [exact Hr|]. split; [exact Hlen|]. split; [exact T1|exact T2].
Defined.

(** A pipe typed with spaces around it and inside it. *)
Lemma jqFilter_strips_spaces_witness :
  let m := fst (after (keys_of [" "; "."; "a"; " "; "|"; " "; "."; "b"; " "])) in
  all_spaces " " = true
  /\ solid_ends ".a | .b" = true
  /\ textinput.Value (textinput m) = (" " ++ ".a | .b" ++ " ")%string
  /\ jqFilter m = ".a | .b".
Proof.
  cbv zeta.
  assert (Hv : textinput.Value
                 (textinput (fst (after (keys_of
                    [" "; "."; "a"; " "; "|"; " "; "."; "b"; " "]))))
               = (" " ++ ".a | .b" ++ " ")%string) by reflexivity.
  split; [reflexivity|]. split; [reflexivity|]. split; [exact Hv|].
  exact (jqFilter_strips_spaces (P := platform)
           _ " " ".a | .b" " " eq_refl eq_refl eq_refl Hv).
Defined.

(** Typing an expression and looking around without submitting. *)
Lemma engine_runs_only_on_submit_witness :
  let msgs := (tea.WindowSizeMsg 80 24
               :: keys_of ["."; "a"; "tab"; "down"; "tab"; "ctrl+c"])%list in
  let m := fst (after []) in
  let w := snd (after []) in
  forallb (fun msg => negb (is_submit msg)) msgs = true
  /\ jqFilter (fst (steps msgs m w)) = ".a"
  /\ snd (steps msgs m w) = w
  /\ result (fst (steps msgs m w)) = result m.
Proof.
  cbv zeta.
  assert (Hall : forallb (fun msg => negb (is_submit (P := platform) msg))
                   (tea.WindowSizeMsg 80 24
                    :: keys_of ["."; "a"; "tab"; "down"; "tab"; "ctrl+c"])
                 = true) by reflexivity.
  destruct (engine_runs_only_on_submit (P := platform) (W := widgets)
              (H := terminal) _ (fst (after [])) (snd (after [])) Hall)
    as (T1 & T2 & _).
  split; [exact Hall|]. split; [vm_compute; reflexivity|].
  split; [exact T1|exact T2].
Defined.

(** The file torn in the middle: the program ends before the first
    engine run. *)
Lemma main_Fatal_silent_witness :
  let msg := "read torn.json: input/output error" in
  fst (@main _ widgets torn_terminal world0) = Fatal msg
  /\ @exec_LookPath _ torn_terminal "jq" = None
  /\ snd (@getContent _ torn_terminal) = Some msg
  /\ stdout (snd (@main _ widgets torn_terminal world0)) = stdout world0
  /\ snd (@main _ widgets torn_terminal world0) = world0.
Proof.
  cbv zeta.
  assert (Hm : fst (@main _ widgets torn_terminal world0)
               = Fatal "read torn.json: input/output error") by reflexivity.
  destruct (@main_Fatal_silent _ widgets torn_terminal world0 _ Hm)
    as (T1 & _ & T3 & _).
  destruct (T3 eq_refl _ eq_refl) as (_ & Hw).
  split; [exact Hm|]. split; [reflexivity|]. split; [reflexivity|].
  split; [exact T1|exact Hw].
Defined.

End Sessions.
